(** * IMPROVER [improver/utilities/save.py]: saving cubes to NetCDF

    A shallow embedding of [_order_cell_methods], [_check_metadata] and
    [save_netcdf], with the cubes held in an object store that the function
    mutates in place, the filesystem as a finite map from paths to file
    contents together with what the operating system refuses to rename, and
    the external collaborators (the mandatory-standards check and the iris
    NetCDF writer) as section variables. *)

From Stdlib Require Import ZArith Lia.
From Stdlib Require String Ascii OrdersEx SpecFloat.
From stdpp Require Import gmap strings list sorting functions.

Local Open Scope nat_scope.

(** ** Python orderings on strings and tuples *)

Module PyOrder.

(** Lexicographic chaining of two three-way comparisons, as Python compares
    tuples: the first component that differs decides. *)
Definition lex (c1 c2 : comparison) : comparison :=
  match c1 with Eq => c2 | _ => c1 end.

(** [str.__lt__], three-way: code point by code point, a proper prefix
    first. *)
Definition str_compare : string → string → comparison := String.compare.

(** [tuple.__lt__] on tuples of strings, three-way. *)
Definition strs_compare : list string → list string → comparison :=
  list_compare str_compare.

(** [tuple.__lt__] on a pair, the components compared in turn. *)
Definition pair_compare {A B} (cmpA : A → A → comparison)
    (cmpB : B → B → comparison) (p q : A * B) : comparison :=
  lex (cmpA p.1 q.1) (cmpB p.2 q.2).

(** [x < y], and "[y] is not smaller than [x]", which is what a sort driven
    by [__lt__] establishes between neighbours. *)
Definition lt_of {A} (cmp : A → A → comparison) (x y : A) : Prop :=
  cmp x y = Lt.
Definition le_of {A} (cmp : A → A → comparison) (x y : A) : Prop :=
  cmp y x ≠ Lt.

(** What a three-way comparison must satisfy to induce a total order. *)
Record total_cmp {A} (cmp : A → A → comparison) : Prop := {
  cmp_eq : ∀ x y, cmp x y = Eq ↔ x = y;
  cmp_antisym : ∀ x y, cmp y x = CompOpp (cmp x y);
  cmp_trans : ∀ x y z c, cmp x y = c → cmp y z = c → cmp x z = c
}.

End PyOrder.

(** ** Cell methods *)

(** [iris.coords.CellMethod]: hashable and ordered by its identity tuple
    [(method, coord_names, intervals, comments)]. *)
Record CellMethod := {
  method : string;
  coord_names : list string;
  intervals : list string;
  comments : list string
}.

Module CellMethods.
Import PyOrder.

Definition identity (m : CellMethod) :
  string * (list string * (list string * list string)) :=
  (method m, (coord_names m, (intervals m, comments m))).

Definition of_identity
  (t : string * (list string * (list string * list string))) : CellMethod :=
  {| method := t.1; coord_names := t.2.1;
     intervals := t.2.2.1; comments := t.2.2.2 |}.

#[global] Instance CellMethod_eq_dec : EqDecision CellMethod.
Proof. solve_decision. Defined.

(** [__hash__] and [__eq__] go through the identity tuple. *)
#[global] Instance CellMethod_countable : Countable CellMethod.
Proof. refine (inj_countable' identity of_identity _). by intros []. Defined.

(** [_identity() < other._identity()], three-way. *)
Definition identity_compare :=
  pair_compare str_compare
    (pair_compare strs_compare (pair_compare strs_compare strs_compare)).

Definition compare (a b : CellMethod) : comparison :=
  identity_compare (identity a) (identity b).

(** [CellMethod.__lt__]. *)
Definition lt : relation CellMethod := lt_of compare.

Definition le : relation CellMethod := le_of compare.

#[global] Instance lt_dec a b : Decision (lt a b).
Proof. unfold lt, lt_of. apply _. Defined.

#[global] Instance le_dec a b : Decision (le a b).
Proof. unfold le, le_of. apply _. Defined.

(** [sorted(xs)] on cell methods. *)
Definition sorted (xs : list CellMethod) : list CellMethod :=
  merge_sort le xs.

(** [tuple(sorted(set(xs)))]: the set's iteration order is whatever the
    hash table gives, the sort makes the result independent of it. *)
Definition canonical (xs : list CellMethod) : list CellMethod :=
  sorted (elements (list_to_set xs : gset CellMethod)).

End CellMethods.

(** ** Cubes *)

(** [cf_units.Unit], by category. *)
Inductive Unit :=
  | UnitUnknown
  | UnitNoUnit
  | UnitUdunits (symbol : string).

(** [Unit.is_unknown()]. *)
Definition is_unknown (u : Unit) : bool :=
  match u with UnitUnknown => true | _ => false end.

(** Values of cube attributes. *)
Inductive AttrValue :=
  | AttrStr (s : string)
  | AttrInt (n : Z).

(** The part of [iris.cube.Cube] that [save.py] reads or writes:
    [name] is what [cube.name()] returns, [shape] is [cube.shape]
    (so [cube.ndim] is its length), [attributes] is the attribute dict. *)
Record Cube := {
  name : string;
  units : Unit;
  shape : list nat;
  cell_methods : list CellMethod;
  attributes : gmap string AttrValue
}.

Definition ndim (c : Cube) : nat := length (shape c).

(** [cube.cell_methods = cms]. *)
Definition set_cell_methods (cms : list CellMethod) (c : Cube) : Cube :=
  {| name := name c; units := units c; shape := shape c;
     cell_methods := cms; attributes := attributes c |}.

(** [cube.attributes = attrs]. *)
Definition set_attributes (attrs : gmap string AttrValue) (c : Cube) : Cube :=
  {| name := name c; units := units c; shape := shape c;
     cell_methods := cell_methods c; attributes := attrs |}.

(** [list(d.keys())]. *)
Definition keys (d : gmap string AttrValue) : list string := (map_to_list d).*1.

(** ** Strings *)

Module PyStr.

(** [s.startswith(p)]. *)
Fixpoint startswith (p s : string) : bool :=
  match p, s with
  | EmptyString, _ => true
  | String a p', String b s' => if decide (a = b) then startswith p' s' else false
  | String _ _, EmptyString => false
  end.

(** [p in s] for strings: [p] occurs somewhere in [s]. *)
Fixpoint contains (p s : string) : bool :=
  startswith p s ||
  match s with
  | EmptyString => false
  | String _ s' => contains p s'
  end.

(** The last character of a string, if any. *)
Fixpoint last (s : string) : option Ascii.ascii :=
  match s with
  | EmptyString => None
  | String a EmptyString => Some a
  | String _ s' => last s'
  end.

End PyStr.

(** ** Program state, exceptions and the monad of Python statements *)

(** Cubes are objects: a batch holds references into the store. *)
Abbreviation loc := nat (only parsing).

(** The options [save_netcdf] passes to [iris.fileformats.netcdf.save]. *)
Record SaveOptions := {
  local_keys : gset string;
  complevel : Z;
  shuffle : bool;
  zlib : bool;
  chunksizes : option (list nat);
  least_significant_digit : option Z;
  fill_value : option SpecFloat.spec_float
}.

Inductive Event :=
  | Warn (msg : string)
  | NetcdfSave (cubes : list Cube) (path : string) (opts : SaveOptions)
  | Rename (src dst : string).

(** The store of cubes, the plain files by path, what has been done so
    far, and what the operating system has against renaming one path to
    another for a reason the map of plain files does not show (a target that
    is a directory, an empty target name, a missing permission): the [errno]
    that [os.rename] would fail with, if any. *)
Record State := {
  heap : loc → Cube;
  files : gmap string string;
  events : list Event;
  os_refuses : string → string → option Z
}.

(** Exceptions, kept apart by who raises them: [ValueError] is raised by
    [save.py] itself, [StandardsError] is the [ValueError] that
    [check_mandatory_standards] raises, [WriterError] is whatever the NetCDF
    writer raises, and [FileNotFoundError] and [OSError] come from
    [os.rename]: [OSError errno path] stands for every [OSError] other than
    [FileNotFoundError], by its [errno] ([IsADirectoryError] is 21,
    [PermissionError] is 13 or 1, and so on). *)
Inductive Exn :=
  | ValueError (msg : string)
  | StandardsError (msg : string)
  | UnboundLocalError (var : string)
  | IndexError
  | WriterError (msg : string)
  | FileNotFoundError (path : string)
  | OSError (errno : Z) (path : string).

(** The exception Python makes of a failed system call: [ENOENT] is
    [FileNotFoundError]. *)
Definition ENOENT : Z := 2.
Definition EISDIR : Z := 21.

Definition os_error (errno : Z) (path : string) : Exn :=
  if decide (errno = ENOENT) then FileNotFoundError path
  else OSError errno path.

Inductive Outcome (A : Type) :=
  | Ok (a : A)
  | Raise (e : Exn).
Arguments Ok {A} a.
Arguments Raise {A} e.

Definition Py (A : Type) : Type := State → Outcome A * State.

#[global] Instance Py_ret : MRet Py := λ A a st, (Ok a, st).
#[global] Instance Py_bind : MBind Py := λ A B f m st,
  match m st with
  | (Ok a, st') => f a st'
  | (Raise e, st') => (Raise e, st')
  end.

Definition raise {A} (e : Exn) : Py A := λ st, (Raise e, st).

Definition set_heap (h : loc → Cube) (st : State) : State :=
  {| heap := h; files := files st; events := events st;
     os_refuses := os_refuses st |}.

Definition set_files (fs : gmap string string) (st : State) : State :=
  {| heap := heap st; files := fs; events := events st;
     os_refuses := os_refuses st |}.

Definition add_event (e : Event) (st : State) : State :=
  {| heap := heap st; files := files st; events := events st ++ [e];
     os_refuses := os_refuses st |}.

(** Reading and updating the object behind a reference. *)
Definition read (l : loc) : Py Cube := λ st, (Ok (heap st l), st).

Definition update (l : loc) (f : Cube → Cube) : Py unit := λ st,
  (Ok (), set_heap (<[l := f (heap st l)]> (heap st)) st).

Definition emit (e : Event) : Py unit := λ st, (Ok (), add_event e st).

Definition get_files : Py (gmap string string) := λ st, (Ok (files st), st).

Definition put_files (fs : gmap string string) : Py unit := λ st,
  (Ok (), set_files fs st).

(** The objects a list of references denotes. *)
Definition read_all (ls : list loc) : Py (list Cube) := λ st,
  (Ok (heap st <$> ls), st).

(** [l[i]] for [0 <= i]. *)
Definition index {A} (l : list A) (i : nat) : Py A :=
  match l !! i with
  | Some x => mret x
  | None => raise IndexError
  end.

(** [l[-k]] for [1 <= k]. *)
Definition index_back {A} (l : list A) (k : nat) : Py A :=
  if decide (k ≤ length l) then index l (length l - k) else raise IndexError.

(** Reading a local variable that an earlier statement may not have bound. *)
Definition local {A} (var : string) (v : option A) : Py A :=
  match v with
  | Some x => mret x
  | None => raise (UnboundLocalError var)
  end.

(** What the operating system has against the renaming of [src] to
    [dst]. *)
Definition get_refusal (src dst : string) : Py (option Z) := λ st,
  (Ok (os_refuses st src dst), st).

(** [os.rename(src, dst)] on a filesystem of plain files: it fails when
    there is no file at [src], or when the operating system refuses for a
    reason of its own, and then changes nothing; otherwise the file moves,
    replacing what was at [dst]. *)
Definition os_rename (src dst : string) : Py unit :=
  emit (Rename src dst);;
  fs ← get_files;
  match fs !! src with
  | Some data =>
      refusal ← get_refusal src dst;
      match refusal with
      | Some errno => raise (os_error errno src)
      | None => put_files (<[dst := data]> (delete src fs))
      end
  | None => raise (FileNotFoundError src)
  end.

(** ** [save.py] *)

(** What [save_netcdf] accepts as [cubelist]: a cube, a [CubeList], or any
    other iterable of cubes. *)
Inductive CubesArg :=
  | ACube (cube : loc)
  | ACubeList (cubes : list loc)
  | AnIterable (cubes : list loc).

(** Lines 92-95: the argument as a [CubeList]. *)
Definition as_cubelist (cubelist : CubesArg) : list loc :=
  match cubelist with
  | ACube cube => [cube]
  | ACubeList cubes => cubes
  | AnIterable cubes => cubes
  end.

Definition unknown_units_msg (cube_name : string) : string :=
  cube_name +:+ " has unknown units".

Definition chunksize_warning : string :=
  "Chunksize not set as cubelist contains cubes of varying dimensions".

Definition compression_level_msg : string :=
  "Compression level must be an integer value between 0 and 9 (0 to disable compression)".

(** Lines 118-126. *)
Definition fixed_global_keys : list string :=
  ["title"; "um_version"; "grid_id"; "source"; "Conventions"; "institution";
   "history"].

(** Line 127, for the cube the local variable [cube] is bound to. *)
Definition global_keys_of (cube : Cube) : list string :=
  fixed_global_keys ++
  filter (λ key, PyStr.contains "mosg__" key) (keys (attributes cube)).

(** Lines 129-134. *)
Definition local_keys_of (global_keys : list string) (cubelist : list Cube)
    : gset string :=
  list_to_set (cube ← cubelist;
               filter (λ key, key ∉ global_keys) (keys (attributes cube))).

(** Line 109: [{cube.shape[:2] for cube in cubelist}]. *)
Definition leading_shapes (cubelist : list Cube) : gset (list nat) :=
  list_to_set ((λ cube, take 2 (shape cube)) <$> cubelist).

Section save.

(** [improver.metadata.check_datatypes.check_mandatory_standards]: returns
    normally ([None]) or raises a [ValueError] with a message. *)
Variable check_mandatory_standards : Cube → option string.

(** [iris.fileformats.netcdf.save]: given the cubes, the path and the
    options, leaves a filesystem behind and returns normally ([None]) or
    raises. *)
Variable netcdf_save :
  list Cube → string → SaveOptions → gmap string string →
  option string * gmap string string.

Definition _order_cell_methods (cube : loc) : Py unit :=
  c ← read cube;
  let cell_methods := CellMethods.canonical (cell_methods c) in
  update cube (set_cell_methods cell_methods).

Definition _check_metadata (cube : loc) : Py unit :=
  c ← read cube;
  match check_mandatory_standards c with
  | Some msg => raise (StandardsError msg)
  | None =>
      if is_unknown (units c)
      then raise (ValueError (unknown_units_msg (name c)))
      else mret ()
  end.

(** [cube.attributes.pop(key, None)]. *)
Definition attributes_pop (cube : loc) (key : string) : Py unit :=
  update cube (λ c, set_attributes (delete key (attributes c)) c).

(** Lines 97-104: the [for cube in cubelist] loop. The second argument and
    the result are the binding of the function's local variable [cube],
    which the loop assigns and which outlives it. *)
Fixpoint validate_cubes (cubelist : list loc) (cube : option loc)
    : Py (option loc) :=
  match cubelist with
  | [] => mret cube
  | c :: rest =>
      _order_cell_methods c;;
      _check_metadata c;;
      attributes_pop c "least_significant_digit";;
      validate_cubes rest (Some c)
  end.

(** Lines 106-116: the chunk sizes, and the new binding of [cube]. *)
Definition plan_chunksizes (cubelist : list loc) (cube : option loc)
    : Py (option (list nat) * option loc) :=
  cubes ← read_all cubelist;
  if decide (size (leading_shapes cubes) = 1) then
    cube0 ← index cubelist 0;
    c ← read cube0;
    if decide (2 ≤ ndim c) then
      d2 ← index_back (shape c) 2;
      d1 ← index_back (shape c) 1;
      mret (Some (replicate (ndim c - 2) 1 ++ [d2; d1]), Some cube0)
    else mret (None, Some cube0)
  else
    emit (Warn chunksize_warning);;
    mret (None, cube).

(** The call of the writer at lines 143-153. *)
Definition iris_netcdf_save (cubelist : list loc) (path : string)
    (opts : SaveOptions) : Py unit :=
  cubes ← read_all cubelist;
  emit (NetcdfSave cubes path opts);;
  fs ← get_files;
  let '(result, fs') := netcdf_save cubes path opts fs in
  put_files fs';;
  match result with
  | None => mret ()
  | Some msg => raise (WriterError msg)
  end.

Definition save_netcdf (cubelist : CubesArg) (filename : string)
    (compression_level : Z) (least_significant_digit : option Z)
    (fill_value : option SpecFloat.spec_float) : Py unit :=
  let cubelist := as_cubelist cubelist in
  cube ← validate_cubes cubelist None;
  '(chunksizes, cube) ← plan_chunksizes cubelist cube;
  cube ← local "cube" cube;
  c ← read cube;
  let global_keys := global_keys_of c in
  cubes ← read_all cubelist;
  let local_keys := local_keys_of global_keys cubes in
  if decide (0 ≤ compression_level < 10)%Z then
    let ftmp := filename +:+ ".tmp" in
    iris_netcdf_save cubelist ftmp
      {| local_keys := local_keys;
         complevel := compression_level;
         shuffle := true;
         zlib := bool_decide (0 < compression_level)%Z;
         chunksizes := chunksizes;
         least_significant_digit := least_significant_digit;
         fill_value := fill_value |};;
    os_rename ftmp filename
  else raise (ValueError compression_level_msg).

End save.

(** ** The paths through [save_netcdf] *)

(** What one iteration of the loop at lines 97-104 does to a cube:
    [_order_cell_methods], then the removal of the precision attribute. *)
Definition ordered (c : Cube) : Cube :=
  set_cell_methods (CellMethods.canonical (cell_methods c)) c.

Definition without_lsd (c : Cube) : Cube :=
  set_attributes (delete "least_significant_digit" (attributes c)) c.

Definition validated (c : Cube) : Cube := without_lsd (ordered c).

(** The chunk sizes lines 111-113 compute from a cube. *)
Definition chunk_shape (c : Cube) : option (list nat) :=
  if decide (2 ≤ ndim c)
  then Some (replicate (ndim c - 2) 1 ++ drop (ndim c - 2) (shape c))
  else None.

(** The keyword arguments of the call at lines 143-153, when the local
    variable [cube] denotes [c]. *)
Definition save_options (c : Cube) (cubes : list Cube)
    (chunks : option (list nat)) (compression_level : Z)
    (lsd : option Z) (fv : option SpecFloat.spec_float) : SaveOptions :=
  {| local_keys := local_keys_of (global_keys_of c) cubes;
     complevel := compression_level;
     shuffle := true;
     zlib := bool_decide (0 < compression_level)%Z;
     chunksizes := chunks;
     least_significant_digit := lsd;
     fill_value := fv |}.

Section runs.

Variable check_mandatory_standards : Cube → option string.
Variable netcdf_save :
  list Cube → string → SaveOptions → gmap string string →
  option string * gmap string string.

Abbreviation validate_cubes := (validate_cubes check_mandatory_standards).

(** The seven ways a call of [save_netcdf] on the batch [cubelist] can go,
    with the outcome and the state it leaves. *)
Inductive Run (cubelist : list loc) (filename : string)
    (compression_level : Z) (lsd : option Z)
    (fv : option SpecFloat.spec_float) (st : State)
    : Outcome () → State → Prop :=
  | run_invalid e st1 :
      validate_cubes cubelist None st = (Raise e, st1) →
      Run cubelist filename compression_level lsd fv st (Raise e) st1
  | run_unbound v st1 chunks st2 :
      validate_cubes cubelist None st = (Ok v, st1) →
      plan_chunksizes cubelist v st1 = (Ok (chunks, None), st2) →
      Run cubelist filename compression_level lsd fv st
        (Raise (UnboundLocalError "cube")) st2
  | run_bad_level v st1 chunks cube st2 :
      validate_cubes cubelist None st = (Ok v, st1) →
      plan_chunksizes cubelist v st1 = (Ok (chunks, Some cube), st2) →
      ¬ (0 ≤ compression_level < 10)%Z →
      Run cubelist filename compression_level lsd fv st
        (Raise (ValueError compression_level_msg)) st2
  | run_writer_fails v st1 chunks cube st2 msg fs' :
      validate_cubes cubelist None st = (Ok v, st1) →
      plan_chunksizes cubelist v st1 = (Ok (chunks, Some cube), st2) →
      (0 ≤ compression_level < 10)%Z →
      let cubes := heap st2 <$> cubelist in
      let ftmp := filename +:+ ".tmp" in
      let opts :=
        save_options (heap st2 cube) cubes chunks compression_level lsd fv in
      netcdf_save cubes ftmp opts (files st2) = (Some msg, fs') →
      Run cubelist filename compression_level lsd fv st
        (Raise (WriterError msg))
        (set_files fs' (add_event (NetcdfSave cubes ftmp opts) st2))
  | run_rename_fails v st1 chunks cube st2 fs' :
      validate_cubes cubelist None st = (Ok v, st1) →
      plan_chunksizes cubelist v st1 = (Ok (chunks, Some cube), st2) →
      (0 ≤ compression_level < 10)%Z →
      let cubes := heap st2 <$> cubelist in
      let ftmp := filename +:+ ".tmp" in
      let opts :=
        save_options (heap st2 cube) cubes chunks compression_level lsd fv in
      netcdf_save cubes ftmp opts (files st2) = (None, fs') →
      fs' !! ftmp = None →
      Run cubelist filename compression_level lsd fv st
        (Raise (FileNotFoundError ftmp))
        (add_event (Rename ftmp filename)
           (set_files fs' (add_event (NetcdfSave cubes ftmp opts) st2)))
  | run_rename_refused v st1 chunks cube st2 fs' data errno :
      validate_cubes cubelist None st = (Ok v, st1) →
      plan_chunksizes cubelist v st1 = (Ok (chunks, Some cube), st2) →
      (0 ≤ compression_level < 10)%Z →
      let cubes := heap st2 <$> cubelist in
      let ftmp := filename +:+ ".tmp" in
      let opts :=
        save_options (heap st2 cube) cubes chunks compression_level lsd fv in
      netcdf_save cubes ftmp opts (files st2) = (None, fs') →
      fs' !! ftmp = Some data →
      os_refuses st2 ftmp filename = Some errno →
      Run cubelist filename compression_level lsd fv st
        (Raise (os_error errno ftmp))
        (add_event (Rename ftmp filename)
           (set_files fs' (add_event (NetcdfSave cubes ftmp opts) st2)))
  | run_saved v st1 chunks cube st2 fs' data :
      validate_cubes cubelist None st = (Ok v, st1) →
      plan_chunksizes cubelist v st1 = (Ok (chunks, Some cube), st2) →
      (0 ≤ compression_level < 10)%Z →
      let cubes := heap st2 <$> cubelist in
      let ftmp := filename +:+ ".tmp" in
      let opts :=
        save_options (heap st2 cube) cubes chunks compression_level lsd fv in
      netcdf_save cubes ftmp opts (files st2) = (None, fs') →
      fs' !! ftmp = Some data →
      os_refuses st2 ftmp filename = None →
      Run cubelist filename compression_level lsd fv st (Ok ())
        (set_files (<[filename := data]> (delete ftmp fs'))
           (add_event (Rename ftmp filename)
              (set_files fs' (add_event (NetcdfSave cubes ftmp opts) st2)))).

End runs.

(** ** Reading the record of a run *)

(** The path and the options of each call of the writer, in order. *)
Definition writer_calls (evs : list Event) : list (string * SaveOptions) :=
  ev ← evs;
  match ev with
  | NetcdfSave _ path opts => [(path, opts)]
  | _ => []
  end.

(** The warnings issued, in order. *)
Definition warnings (evs : list Event) : list string :=
  ev ← evs;
  match ev with
  | Warn msg => [msg]
  | _ => []
  end.

(** The renames asked of the filesystem, in order. *)
Definition renames (evs : list Event) : list (string * string) :=
  ev ← evs;
  match ev with
  | Rename src dst => [(src, dst)]
  | _ => []
  end.

(** ** Concrete collaborators and batches *)

Module Examples.

(** A standards check that accepts every cube, and one that rejects the
    cubes named ["bad_time"]. *)
Definition standards_pass : Cube → option string := λ _, None.


(** A writer that creates the file it is asked for, and one that fails
    after leaving a truncated file at that path. *)
Definition writer (cubes : list Cube) (path : string) (opts : SaveOptions)
    (fs : gmap string string) : option string * gmap string string :=
  (None, <[path := "CDF-complete"]> fs).

Definition failing_writer (cubes : list Cube) (path : string)
    (opts : SaveOptions) (fs : gmap string string)
    : option string * gmap string string :=
  (Some "disk full", <[path := "CDF-trunc"]> fs).

Definition cm (m : string) (coords : list string) : CellMethod :=
  {| method := m; coord_names := coords; intervals := []; comments := [] |}.

Definition kelvin : Unit := UnitUdunits "K".

Definition cube (n : string) (u : Unit) (sh : list nat)
    (cms : list CellMethod) (attrs : list (string * AttrValue)) : Cube :=
  {| name := n; units := u; shape := sh; cell_methods := cms;
     attributes := list_to_map attrs |}.

Definition no_cube : Cube := cube "unknown" UnitNoUnit [] [] [].

(** A store holding [cubes] at the references [0], [1], ... *)
Definition store (cubes : list Cube) : loc → Cube := λ l,
  default no_cube (cubes !! l).

(** A state with that store, the file [old] at the target path
    ["out.nc"] (if given), nothing done yet, and an operating system that
    refuses no renaming. *)
Definition state (cubes : list Cube) (old : option string) : State :=
  {| heap := store cubes;
     files := from_option (λ data, {["out.nc" := data]}) ∅ old;
     events := [];
     os_refuses := λ _ _, None |}.

(** The same state with a directory at the target path: a file cannot be
    renamed to it. *)
Definition directory_at (dst : string) (st : State) : State :=
  {| heap := heap st; files := files st; events := events st;
     os_refuses := λ _ dst',
       if decide (dst' = dst) then Some EISDIR else None |}.

Definition temperature : Cube :=
  cube "air_temperature" kelvin [3; 5; 5]
    [cm "mean" ["time"]; cm "maximum" ["time"]; cm "mean" ["time"]]
    [("title", AttrStr "IMPROVER"); ("least_significant_digit", AttrInt 2)].

Definition mystery : Cube :=
  cube "mystery" UnitUnknown [5; 5] [] [].


(** Two cubes on the same grid; only the second carries a [mosg__] key. *)
Definition plain : Cube :=
  cube "air_temperature" kelvin [3; 5; 5] []
    [("title", AttrStr "IMPROVER")].

Definition gridded : Cube :=
  cube "wind_speed" (UnitUdunits "m s-1") [3; 5; 5] []
    [("mosg__grid_type", AttrStr "standard")].

(** Cubes with equal trailing dimensions and different leading ones, and
    the other way round. *)
Definition three_steps : Cube := cube "air_temperature" kelvin [3; 5; 5] [] [].
Definition four_steps : Cube := cube "air_temperature" kelvin [4; 5; 5] [] [].
Definition coarse : Cube := cube "air_temperature" kelvin [2; 3; 4; 5] [] [].
Definition fine : Cube := cube "air_temperature" kelvin [2; 3; 6; 7] [] [].

End Examples.

(** * Properties *)

(** ** Orderings *)

Module PyOrderFacts.
Import PyOrder.

Lemma str_compare_refl s : str_compare s s = Eq.
Proof.
  pose proof (String.compare_antisym s s) as H. unfold str_compare.
  by destruct (String.compare s s).
Qed.

Lemma str_compare_total : total_cmp str_compare.
Proof.
  split.
  - intros x y; split; [apply String.compare_eq_iff|].
    intros ->; apply str_compare_refl.
  - intros x y. apply String.compare_antisym.
  - assert (Hlt : ∀ x y z, str_compare x y = Lt → str_compare y z = Lt →
                             str_compare x z = Lt).
    { intros x y z H1 H2.
      exact (StrictOrder_Transitive (R:=OrdersEx.String_as_OT.lt) x y z H1 H2). }
    intros x y z [] H1 H2.
    + apply String.compare_eq_iff in H1 as ->. done.
    + eauto.
    + unfold str_compare in *.
      rewrite String.compare_antisym in H1, H2 |- *.
      apply CompOpp_iff in H1, H2. apply CompOpp_iff. simpl in *.
      exact (Hlt z y x H2 H1).
Qed.

Lemma list_compare_total {A} (cmp : A → A → comparison) :
  total_cmp cmp → total_cmp (list_compare cmp).
Proof.
  intros [He Ha Ht]. split.
  - by apply list_compare_refl.
  - intros x y. by apply list_compare_antisym.
  - intros x y z c. apply list_compare_trans; assumption.
Qed.

Lemma strs_compare_total : total_cmp strs_compare.
Proof. apply list_compare_total, str_compare_total. Qed.

Lemma lex_eq c1 c2 : lex c1 c2 = Eq ↔ c1 = Eq ∧ c2 = Eq.
Proof. destruct c1; simpl; intuition congruence. Qed.

Lemma lex_opp c1 c2 : lex (CompOpp c1) (CompOpp c2) = CompOpp (lex c1 c2).
Proof. by destruct c1. Qed.

Lemma pair_compare_total {A B} (cmpA : A → A → comparison)
    (cmpB : B → B → comparison) :
  total_cmp cmpA → total_cmp cmpB → total_cmp (pair_compare cmpA cmpB).
Proof.
  intros [HeA HaA HtA] [HeB HaB HtB]. split.
  - intros [a1 b1] [a2 b2]. unfold pair_compare. simpl.
    rewrite lex_eq, HeA, HeB. split; [intros [-> ->]; done|].
    intros [= -> ->]; done.
  - intros [a1 b1] [a2 b2]. unfold pair_compare. simpl.
    by rewrite HaA, HaB, lex_opp.
  - intros [a1 b1] [a2 b2] [a3 b3] c. unfold pair_compare. simpl.
    destruct (cmpA a1 a2) eqn:E12; simpl.
    + apply HeA in E12 as ->.
      destruct (cmpA a2 a3) eqn:E23; simpl; [apply HtB|done|done].
    + intros <-. destruct (cmpA a2 a3) eqn:E23; simpl; try done.
      * apply HeA in E23 as <-. by rewrite E12.
      * by rewrite (HtA _ _ _ _ E12 E23).
    + intros <-. destruct (cmpA a2 a3) eqn:E23; simpl; try done.
      * apply HeA in E23 as <-. by rewrite E12.
      * by rewrite (HtA _ _ _ _ E12 E23).
Qed.

(** A total comparison read through an injective key. *)
Lemma key_compare_total {A K} (key : A → K) (cmp : K → K → comparison) :
  Inj (=) (=) key → total_cmp cmp →
  total_cmp (λ x y, cmp (key x) (key y)).
Proof.
  intros Hinj [He Ha Ht]. split.
  - intros x y. rewrite He. split; [apply Hinj|by intros ->].
  - intros x y. apply Ha.
  - intros x y z c. apply Ht.
Qed.

Section order_of_cmp.
Context {A} (cmp : A → A → comparison) (Hcmp : total_cmp cmp).

Lemma le_of_alt x y : le_of cmp x y ↔ cmp x y ≠ Gt.
Proof.
  unfold le_of. rewrite (cmp_antisym _ Hcmp x y).
  destruct (cmp x y); simpl; intuition congruence.
Qed.

Lemma le_of_lt_or_eq x y : le_of cmp x y ↔ lt_of cmp x y ∨ x = y.
Proof.
  rewrite le_of_alt. unfold lt_of.
  pose proof (cmp_eq _ Hcmp x y) as He.
  destruct (cmp x y); intuition congruence.
Qed.

Lemma le_of_total : Total (le_of cmp).
Proof.
  intros x y. unfold le_of. rewrite (cmp_antisym _ Hcmp x y).
  destruct (cmp x y); simpl; [left|left|right]; congruence.
Qed.

Lemma le_of_trans : Transitive (le_of cmp).
Proof.
  intros x y z. rewrite !le_of_lt_or_eq. unfold lt_of.
  intros [H1| ->] [H2| ->]; auto.
  left. exact (cmp_trans _ Hcmp _ _ _ _ H1 H2).
Qed.

Lemma le_of_antisym : AntiSymm (=) (le_of cmp).
Proof.
  intros x y H1 H2. apply le_of_lt_or_eq in H1 as [H1|]; [|done].
  unfold le_of, lt_of in *. congruence.
Qed.

Lemma lt_of_irrefl x : ¬ lt_of cmp x x.
Proof.
  unfold lt_of. assert (cmp x x = Eq) as -> by by apply (cmp_eq _ Hcmp).
  done.
Qed.
End order_of_cmp.

End PyOrderFacts.

(** ** Strings *)

Module PyStrFacts.
Import PyStr.

Lemma length_append s t :
  String.length (s +:+ t) = String.length s + String.length t.
Proof. induction s as [|a s IH]; simpl; [done|by rewrite IH]. Qed.

(** Appending a non-empty suffix gives a different string. *)
Lemma append_ne s t : t ≠ "" → s +:+ t ≠ s.
Proof.
  intros Ht E. apply (f_equal String.length) in E.
  rewrite length_append in E. destruct t; [done|]. simpl in E. lia.
Qed.

Lemma last_append s t : t ≠ "" → last (s +:+ t) = last t.
Proof.
  intros Ht. induction s as [|a s IH]; simpl; [done|].
  rewrite IH. destruct (s +:+ t) eqn:E; [|done].
  destruct s, t; done.
Qed.

(** The two messages [save.py] raises a [ValueError] with never coincide:
    they end in different characters. *)
Lemma unknown_units_msg_ne cube_name :
  unknown_units_msg cube_name ≠ compression_level_msg.
Proof.
  intros E. apply (f_equal last) in E. unfold unknown_units_msg in E.
  rewrite last_append in E by done. vm_compute in E. done.
Qed.

End PyStrFacts.

(** ** Canonical cell methods *)

Module CellMethodsFacts.
Import PyOrder PyOrderFacts CellMethods.

Lemma identity_inj : Inj (=) (=) identity.
Proof. intros [] [] [= -> -> -> ->]. done. Qed.

Lemma compare_total : total_cmp compare.
Proof.
  apply (key_compare_total identity identity_compare identity_inj).
  repeat apply pair_compare_total;
    auto using str_compare_total, strs_compare_total.
Qed.

#[global] Instance le_total : Total le := le_of_total compare compare_total.
#[global] Instance le_trans : Transitive le := le_of_trans compare compare_total.
#[global] Instance le_antisym : AntiSymm (=) le :=
  le_of_antisym compare compare_total.

Lemma sorted_Sorted xs : Sorted le (sorted xs).
Proof. apply (Sorted_merge_sort le). Qed.

Lemma sorted_Permutation xs : sorted xs ≡ₚ xs.
Proof. apply (merge_sort_Permutation le). Qed.

Lemma canonical_Sorted xs : Sorted le (canonical xs).
Proof. apply sorted_Sorted. Qed.

Lemma canonical_NoDup xs : NoDup (canonical xs).
Proof.
  unfold canonical. rewrite sorted_Permutation. apply NoDup_elements.
Qed.

Lemma elem_of_canonical m xs : m ∈ canonical xs ↔ m ∈ xs.
Proof.
  unfold canonical. rewrite sorted_Permutation, elem_of_elements.
  apply elem_of_list_to_set.
Qed.

(** The canonical sequence is the only sorted, duplicate-free sequence with
    the members of [xs]: the order in which the set is iterated does not
    show in the result. *)
Lemma canonical_unique xs l :
  Sorted le l → NoDup l → (∀ m, m ∈ l ↔ m ∈ xs) → canonical xs = l.
Proof.
  intros Hs Hn Hm. apply (Sorted_unique le); auto using canonical_Sorted.
  apply NoDup_Permutation; auto using canonical_NoDup.
  intros m. by rewrite elem_of_canonical, Hm.
Qed.

Lemma canonical_idemp xs : canonical (canonical xs) = canonical xs.
Proof.
  apply canonical_unique; auto using canonical_Sorted, canonical_NoDup.
Qed.

Lemma canonical_ext xs ys :
  (∀ m, m ∈ xs ↔ m ∈ ys) → canonical xs = canonical ys.
Proof.
  intros H. apply canonical_unique;
    auto using canonical_Sorted, canonical_NoDup.
  intros m. by rewrite elem_of_canonical, H.
Qed.

(** Sorted by [le] without duplicates is strictly increasing by [lt]. *)
Lemma StronglySorted_lt l :
  Sorted le l → NoDup l → StronglySorted lt l.
Proof.
  intros Hs%(Sorted_StronglySorted le). induction Hs as [|x l Hl IH Hx].
  - constructor.
  - intros [Hnin Hn]%list.NoDup_cons. constructor; [auto|].
    apply list.Forall_forall. intros y Hy.
    rewrite list.Forall_forall in Hx. specialize (Hx y Hy).
    apply (le_of_lt_or_eq compare compare_total) in Hx as [Hx| ->];
      [exact Hx|exfalso; auto].
Qed.

Lemma canonical_increasing xs : StronglySorted lt (canonical xs).
Proof.
  apply StronglySorted_lt; auto using canonical_Sorted, canonical_NoDup.
Qed.

End CellMethodsFacts.

(** ** Every call of [save_netcdf] takes one of the seven paths *)

Section run_facts.

Variable check_mandatory_standards : Cube → option string.
Variable netcdf_save :
  list Cube → string → SaveOptions → gmap string string →
  option string * gmap string string.

Abbreviation validate_cubes := (validate_cubes check_mandatory_standards).
Abbreviation save_netcdf := (save_netcdf check_mandatory_standards netcdf_save).
Abbreviation Run := (Run check_mandatory_standards netcdf_save).

Lemma bind_run {A B} (m : Py A) (f : A → Py B) st :
  (m ≫= f) st =
  match m st with
  | (Ok a, st') => f a st'
  | (Raise e, st') => (Raise e, st')
  end.
Proof. reflexivity. Qed.

(** *** One cube *)

Lemma ordered_idemp c : ordered (ordered c) = ordered c.
Proof.
  unfold ordered, set_cell_methods. simpl.
  by rewrite CellMethodsFacts.canonical_idemp.
Qed.

Lemma without_lsd_idemp c : without_lsd (without_lsd c) = without_lsd c.
Proof.
  unfold without_lsd, set_attributes. simpl.
  by rewrite (delete_id (delete _ _)) by apply lookup_delete_eq.
Qed.

Lemma ordered_without_lsd c : ordered (without_lsd c) = without_lsd (ordered c).
Proof. reflexivity. Qed.

Lemma validated_idemp c : validated (validated c) = validated c.
Proof.
  unfold validated.
  by rewrite ordered_without_lsd, ordered_idemp, without_lsd_idemp.
Qed.

Lemma without_lsd_absent c :
  attributes c !! "least_significant_digit" = None → without_lsd c = c.
Proof.
  intros H. unfold without_lsd, set_attributes. rewrite delete_id by done.
  by destruct c.
Qed.

(** *** The loop over the batch *)

Lemma validate_cubes_cons c rest v st :
  validate_cubes (c :: rest) v st =
  let c1 := ordered (heap st c) in
  let st1 := set_heap (<[c := c1]> (heap st)) st in
  match check_mandatory_standards c1 with
  | Some msg => (Raise (StandardsError msg), st1)
  | None =>
      if is_unknown (units c1)
      then (Raise (ValueError (unknown_units_msg (name c1))), st1)
      else validate_cubes rest (Some c)
             (set_heap (<[c := without_lsd c1]> (heap st1)) st1)
  end.
Proof.
  simpl. unfold _order_cell_methods, _check_metadata, attributes_pop,
    update, read, raise, mbind, Py_bind, mret, Py_ret. simpl.
  rewrite !fn_lookup_insert.
  destruct (check_mandatory_standards _); [done|].
  destruct (is_unknown _); [done|]. simpl.
  by rewrite !fn_lookup_insert.
Qed.

Lemma validate_cubes_Ok ls v st v' st' :
  validate_cubes ls v st = (Ok v', st') →
  files st' = files st ∧ events st' = events st ∧
  v' = from_option Some v (list.last ls) ∧
  (∀ l, l ∈ ls → heap st' l = validated (heap st l)) ∧
  (∀ l, l ∉ ls → heap st' l = heap st l) ∧
  (∀ l, l ∈ ls → is_unknown (units (heap st l)) = false).
Proof.
  revert v st. induction ls as [|c rest IH]; intros v st.
  { intros [= <- <-]. split_and!; try done; by intros l ?%not_elem_of_nil. }
  rewrite validate_cubes_cons. simpl.
  destruct (check_mandatory_standards _); [done|].
  destruct (is_unknown _) eqn:Hu; [done|].
  intros (Hf & He & Hv & Hin & Hout & Hun)%IH. simpl in *.
  assert (Hc : ∀ l,
    (<[c := without_lsd (ordered (heap st c))]>
       (<[c := ordered (heap st c)]> (heap st))) l =
    if decide (c = l) then validated (heap st c) else heap st l).
  { intros l. case_decide as E; [subst; by rewrite fn_lookup_insert|].
    by rewrite !fn_lookup_insert_ne. }
  split_and!; try done.
  - rewrite Hv, last_cons. by destruct (list.last rest).
  - intros l Hl. destruct (decide (l ∈ rest)) as [Hr|Hr].
    + rewrite (Hin l Hr), Hc. case_decide; [subst|done].
      apply validated_idemp.
    + rewrite (Hout l Hr), Hc.
      apply elem_of_cons in Hl as [->|]; [|done]. by rewrite decide_True.
  - intros l [Hne Hl]%not_elem_of_cons. rewrite (Hout l Hl), Hc.
    by rewrite decide_False.
  - intros l [->|Hl]%elem_of_cons; [done|].
    specialize (Hun l Hl). rewrite Hc in Hun. by case_decide; subst.
Qed.

Lemma validate_cubes_Raise ls v st e st' :
  validate_cubes ls v st = (Raise e, st') →
  files st' = files st ∧ events st' = events st ∧
  ((∃ c msg, check_mandatory_standards c = Some msg ∧ e = StandardsError msg) ∨
   (∃ l, l ∈ ls ∧ is_unknown (units (heap st l)) = true ∧
         e = ValueError (unknown_units_msg (name (heap st l))))).
Proof.
  revert v st. induction ls as [|c rest IH]; intros v st; [done|].
  rewrite validate_cubes_cons. simpl.
  destruct (check_mandatory_standards _) as [msg|] eqn:Hs.
  { intros [= <- <-]. split_and!; try done. left. eauto. }
  destruct (is_unknown _) eqn:Hu.
  { intros [= <- <-]. split_and!; try done. right. exists c.
    split_and!; try done. apply elem_of_cons; by left. }
  intros (Hf & He & Hr)%IH. simpl in *. split_and!; try done.
  destruct Hr as [?|(l & Hl & Hlu & ->)]; [by left|right].
  exists l. split; [apply elem_of_cons; by right|].
  destruct (decide (c = l)) as [->|Hne].
  - by rewrite fn_lookup_insert in Hlu |- *.
  - by rewrite !fn_lookup_insert_ne in Hlu |- * by done.
Qed.


(** *** Chunk planning *)

Lemma last_two {A} (l : list A) :
  2 ≤ length l →
  ∃ a b, l !! (length l - 2) = Some a ∧ l !! (length l - 1) = Some b ∧
         drop (length l - 2) l = [a; b].
Proof.
  intros Hl.
  assert (Hd : length (drop (length l - 2) l) = 2) by (rewrite length_drop; lia).
  destruct (drop (length l - 2) l) as [|a [|b [|? ?]]] eqn:E; try done.
  pose proof (lookup_drop l (length l - 2) 0) as H0.
  pose proof (lookup_drop l (length l - 2) 1) as H1.
  rewrite E in H0, H1. simpl in H0, H1.
  replace (length l - 2 + 0) with (length l - 2) in H0 by lia.
  replace (length l - 2 + 1) with (length l - 1) in H1 by lia.
  by exists a, b.
Qed.

Lemma leading_shapes_nonempty cubes :
  size (leading_shapes cubes) = 1 → cubes ≠ [].
Proof. by intros H ->. Qed.

(** Lines 106-116 as a function of the batch. *)
Lemma plan_chunksizes_eq ls v st :
  plan_chunksizes ls v st =
  if decide (size (leading_shapes (heap st <$> ls)) = 1) then
    match ls with
    | l :: _ => (Ok (chunk_shape (heap st l), Some l), st)
    | [] => (Raise IndexError, st)
    end
  else (Ok (None, v), add_event (Warn chunksize_warning) st).
Proof.
  unfold plan_chunksizes. rewrite bind_run. simpl.
  case_decide as Hs; [|reflexivity].
  destruct ls as [|l rest]; [reflexivity|].
  unfold chunk_shape, index, mbind, Py_bind, read, mret, Py_ret. simpl.
  case_decide as Hn; [|reflexivity].
  destruct (last_two (shape (heap st l)) Hn) as (a & b & Ha & Hb & Hd).
  unfold ndim in *. rewrite Hd.
  unfold index_back, index, mret, Py_ret.
  rewrite decide_True by done. rewrite Ha.
  rewrite decide_True by lia. by rewrite Hb.
Qed.

Lemma plan_chunksizes_Ok ls v st :
  ∃ chunks cube st2, plan_chunksizes ls v st = (Ok (chunks, cube), st2).
Proof.
  rewrite plan_chunksizes_eq. case_decide as Hs; [|eauto].
  destruct ls; [|eauto]. by apply leading_shapes_nonempty in Hs.
Qed.

(** Neither the loop nor the planner changes what the operating system
    refuses. *)
Lemma validate_cubes_refuses ls v st out st' :
  validate_cubes ls v st = (out, st') → os_refuses st' = os_refuses st.
Proof.
  revert v st. induction ls as [|c rest IH]; intros v st.
  { by intros [= <- <-]. }
  rewrite validate_cubes_cons. simpl.
  destruct (check_mandatory_standards _); [by intros [= <- <-]|].
  destruct (is_unknown _); [by intros [= <- <-]|].
  by intros ->%IH.
Qed.

Lemma plan_chunksizes_refuses ls v st out st' :
  plan_chunksizes ls v st = (out, st') → os_refuses st' = os_refuses st.
Proof.
  rewrite plan_chunksizes_eq. case_decide; [|by intros [= <- <-]].
  by destruct ls; intros [= <- <-].
Qed.

Lemma prepared_refuses ls st v st1 r st2 :
  validate_cubes ls None st = (Ok v, st1) →
  plan_chunksizes ls v st1 = (r, st2) →
  os_refuses st2 = os_refuses st.
Proof.
  intros Hv%validate_cubes_refuses Hp%plan_chunksizes_refuses. congruence.
Qed.

(** *** The state in which the level check is reached *)

Lemma prepared ls st v st1 chunks cube st2 :
  validate_cubes ls None st = (Ok v, st1) →
  plan_chunksizes ls v st1 = (Ok (chunks, cube), st2) →
  files st2 = files st ∧
  (∃ warns, (warns = [] ∨ warns = [Warn chunksize_warning]) ∧
            events st2 = events st ++ warns) ∧
  (∀ l, l ∈ ls → heap st2 l = validated (heap st l)) ∧
  (∀ l, l ∉ ls → heap st2 l = heap st l) ∧
  (∀ l, l ∈ ls → is_unknown (units (heap st l)) = false) ∧
  match cube with
  | Some c => c ∈ ls
  | None => ls = [] ∧ events st2 = events st ++ [Warn chunksize_warning]
  end.
Proof.
  intros (Hf & He & Hv & Hin & Hout & Hun)%validate_cubes_Ok.
  rewrite plan_chunksizes_eq. case_decide as Hs.
  - destruct ls as [|l rest]; [done|]. intros [= <- <- <-].
    split_and!; try done.
    + exists []. rewrite app_nil_r. auto.
    + apply elem_of_cons; by left.
  - intros [= <- <- <-]. simpl. rewrite Hf, He.
    split_and!; try done; [eauto|].
    simpl in Hv. destruct (list.last ls) as [c|] eqn:Hl; subst v; simpl.
    + by apply last_Some_elem_of in Hl.
    + by apply last_None in Hl.
Qed.

Lemma save_netcdf_Run cubelist filename compression_level lsd fv st :
  Run (as_cubelist cubelist) filename compression_level lsd fv st
    (save_netcdf cubelist filename compression_level lsd fv st).1
    (save_netcdf cubelist filename compression_level lsd fv st).2.
Proof.
  destruct (save_netcdf _ _ _ _ _ _) as [out st'] eqn:Hrun. simpl.
  unfold save_netcdf in Hrun. revert Hrun.
  generalize (as_cubelist cubelist). clear cubelist. intros ls.
  rewrite bind_run.
  destruct (validate_cubes ls None st) as [[v|e] st1] eqn:Hv.
  2:{ intros [= <- <-]. by eapply run_invalid. }
  rewrite bind_run.
  destruct (plan_chunksizes_Ok ls v st1) as (chunks & cube & st2 & Hp).
  rewrite Hp.
  rewrite bind_run. destruct cube as [cube|]; simpl.
  2:{ intros [= <- <-]. by eapply run_unbound. }
  rewrite !bind_run. simpl.
  case_decide as Hl.
  2:{ intros [= <- <-]. by eapply run_bad_level. }
  unfold iris_netcdf_save, os_rename, mbind, Py_bind, read_all, emit,
    get_files, get_refusal, put_files, mret, Py_ret, raise. simpl.
  destruct (netcdf_save _ _ _ _) as [[msg|] fs'] eqn:Hw; simpl.
  { intros [= <- <-]. by eapply run_writer_fails. }
  destruct (fs' !! (filename +:+ ".tmp")) as [data|] eqn:Hf; simpl.
  - destruct (os_refuses st2 (filename +:+ ".tmp") filename)
      as [errno|] eqn:Hos; simpl.
    + intros [= <- <-]. by eapply run_rename_refused.
    + intros [= <- <-]. by eapply run_saved.
  - intros [= <- <-]. by eapply run_rename_fails.
Qed.

(** *** Reading a run backwards from its outcome *)

(** The two exceptions a failed system call becomes. *)
Lemma os_error_cases errno path :
  os_error errno path = FileNotFoundError path ∨
  os_error errno path = OSError errno path.
Proof. unfold os_error. case_decide; auto. Qed.

Lemma os_error_not_value errno path msg :
  os_error errno path ≠ ValueError msg.
Proof. by destruct (os_error_cases errno path) as [-> | ->]. Qed.

(** The only way to the compression-level error is through the whole loop
    and the chunk planner of a non-empty batch. *)
Lemma Run_level_error ls filename compression_level lsd fv st st' :
  Run ls filename compression_level lsd fv st
    (Raise (ValueError compression_level_msg)) st' →
  ¬ (0 ≤ compression_level < 10)%Z ∧ ls ≠ [] ∧
  files st' = files st ∧
  (∃ warns, (warns = [] ∨ warns = [Warn chunksize_warning]) ∧
            events st' = events st ++ warns) ∧
  (∀ l, l ∈ ls → heap st' l = validated (heap st l)) ∧
  (∀ l, l ∉ ls → heap st' l = heap st l).
Proof.
  inversion 1 as [e st1 Hv| |v st1 chunks cube st2 Hv Hp Hl| |
                 |? ? ? ? ? ? ? errno ? ? ? ? ? ? ? ? ? E|]; subst.
  - apply validate_cubes_Raise in Hv as (_ & _ & [(c & msg & _ & [=])|(l & _ & _ & [= E])]).
    symmetry in E. by apply PyStrFacts.unknown_units_msg_ne in E.
  - destruct (prepared _ _ _ _ _ _ _ Hv Hp) as (Hf & Hw & Hin & Hout & _ & Hc).
    split_and!; try done. intros ->. by apply elem_of_nil in Hc.
  - by apply os_error_not_value in E.
Qed.

(** With a level outside [0, 9] no run reaches the writer. *)
Lemma Run_out_of_range ls filename compression_level lsd fv st out st' :
  ¬ (0 ≤ compression_level < 10)%Z →
  Run ls filename compression_level lsd fv st out st' →
  (∃ e, out = Raise e) ∧
  files st' = files st ∧
  (∃ warns, (warns = [] ∨ warns = [Warn chunksize_warning]) ∧
            events st' = events st ++ warns) ∧
  (∀ v st1, ls ≠ [] → validate_cubes ls None st = (Ok v, st1) →
            out = Raise (ValueError compression_level_msg)).
Proof.
  intros Hl.
  inversion 1 as [e st1 Hv|v st1 chunks st2 Hv Hp
                 |v st1 chunks cube st2 Hv Hp _| | | |]; subst; try done.
  - apply validate_cubes_Raise in Hv as Hr. destruct Hr as (Hf & He & _).
    split_and!; eauto.
    + exists []. rewrite app_nil_r. auto.
    + intros v st1' _ Hv'. congruence.
  - destruct (prepared _ _ _ _ _ _ _ Hv Hp) as (Hf & Hw & _ & _ & _ & [-> _]).
    split_and!; eauto. done.
  - destruct (prepared _ _ _ _ _ _ _ Hv Hp) as (Hf & Hw & _).
    split_and!; eauto.
Qed.

(** With a level inside [0, 9], a non-empty batch that gets through the loop
    reaches the writer, with these options. *)
Lemma Run_in_range ls filename compression_level lsd fv st out st' :
  (0 ≤ compression_level < 10)%Z →
  Run ls filename compression_level lsd fv st out st' →
  out ≠ Raise (ValueError compression_level_msg) ∧
  (∀ v st1, ls ≠ [] → validate_cubes ls None st = (Ok v, st1) →
     ∃ cubes opts,
       NetcdfSave cubes (filename +:+ ".tmp") opts ∈ events st' ∧
       complevel opts = compression_level ∧ shuffle opts = true ∧
       zlib opts = bool_decide (0 < compression_level)%Z).
Proof.
  intros Hl.
  inversion 1 as [e st1 Hv|v st1 chunks st2 Hv Hp
                 |
                 |v st1 chunks cube st2 msg fs' Hv Hp _ cubes ftmp opts Hw
                 |v st1 chunks cube st2 fs' Hv Hp _ cubes ftmp opts Hw Hf
                 |v st1 chunks cube st2 fs' data errno Hv Hp _ cubes ftmp
                    opts Hw Hf Hos
                 |v st1 chunks cube st2 fs' data Hv Hp _ cubes ftmp opts Hw Hf
                    Hos];
    subst; try done.
  - split; [|intros; congruence].
    apply validate_cubes_Raise in Hv as (_ & _ & [(c & msg & _ & ->)|(l & _ & _ & ->)]);
      [done|].
    intros [= E]. by apply PyStrFacts.unknown_units_msg_ne in E.
  - split; [done|].
    destruct (prepared _ _ _ _ _ _ _ Hv Hp) as (_ & _ & _ & _ & _ & [-> _]).
    done.
  - split; [done|]. intros _ _ _ _. exists cubes, opts. simpl.
    split_and!; try done. apply elem_of_app. right. apply list_elem_of_here.
  - split; [done|]. intros _ _ _ _. exists cubes, opts. simpl.
    split_and!; try done. apply elem_of_app. left. apply elem_of_app. right.
    apply list_elem_of_here.
  - split; [intros [= E]; by apply os_error_not_value in E|].
    intros _ _ _ _. exists cubes, opts. simpl.
    split_and!; try done. apply elem_of_app. left. apply elem_of_app. right.
    apply list_elem_of_here.
  - split; [done|]. intros _ _ _ _. exists cubes, opts. simpl.
    split_and!; try done. apply elem_of_app. left. apply elem_of_app. right.
    apply list_elem_of_here.
Qed.

(** What a run does to the filesystem and what it records: either it stops
    before the writer and touches no file, or it calls the writer once, on
    the temporary path and on the validated cubes, and renames only if the
    writer returned. *)
Lemma Run_trace ls filename compression_level lsd fv st out st' :
  Run ls filename compression_level lsd fv st out st' →
  ∃ warns, (warns = [] ∨ warns = [Warn chunksize_warning]) ∧
  ((events st' = events st ++ warns ∧ files st' = files st ∧
    ∃ e, out = Raise e ∧ (∀ msg, e ≠ WriterError msg) ∧
         (∀ v st1, validate_cubes ls None st = (Ok v, st1) → ls ≠ [] →
                   ¬ (0 ≤ compression_level < 10)%Z)) ∨
   (∃ chunks cube result fs',
      cube ∈ ls ∧ (0 ≤ compression_level < 10)%Z ∧
      (∀ l, l ∈ ls → heap st' l = validated (heap st l)) ∧
      let cubes := heap st' <$> ls in
      let ftmp := filename +:+ ".tmp" in
      let opts :=
        save_options (heap st' cube) cubes chunks compression_level lsd fv in
      netcdf_save cubes ftmp opts (files st) = (result, fs') ∧
      match result with
      | Some msg =>
          out = Raise (WriterError msg) ∧ files st' = fs' ∧
          events st' = events st ++ warns ++ [NetcdfSave cubes ftmp opts]
      | None =>
          events st' = events st ++ warns ++
                       [NetcdfSave cubes ftmp opts; Rename ftmp filename] ∧
          match fs' !! ftmp, os_refuses st ftmp filename with
          | Some data, None =>
              out = Ok () ∧ files st' = <[filename := data]> (delete ftmp fs')
          | Some data, Some errno =>
              out = Raise (os_error errno ftmp) ∧ files st' = fs'
          | None, _ => out = Raise (FileNotFoundError ftmp) ∧ files st' = fs'
          end
      end)).
Proof.
  inversion 1 as [e st1 Hv|v st1 chunks st2 Hv Hp
                 |v st1 chunks cube st2 Hv Hp Hl
                 |v st1 chunks cube st2 msg fs' Hv Hp Hl cubes ftmp opts Hw
                 |v st1 chunks cube st2 fs' Hv Hp Hl cubes ftmp opts Hw Hd
                 |v st1 chunks cube st2 fs' data errno Hv Hp Hl cubes ftmp
                    opts Hw Hd Hos
                 |v st1 chunks cube st2 fs' data Hv Hp Hl cubes ftmp opts Hw Hd
                    Hos];
    subst; try rewrite (prepared_refuses _ _ _ _ _ _ Hv Hp) in Hos.
  - exists []. split; [auto|left]. rewrite app_nil_r.
    pose proof Hv as (Hf & He & Hr)%validate_cubes_Raise.
    split_and!; try done. exists e. split_and!; [done| |congruence].
    by destruct Hr as [(? & ? & _ & ->)|(? & _ & _ & ->)].
  - destruct (prepared _ _ _ _ _ _ _ Hv Hp)
      as (Hf & (warns & Hw & He) & _ & _ & _ & Hnil & _).
    exists warns. split; [done|left]. split_and!; try done.
    eexists. split_and!; done.
  - destruct (prepared _ _ _ _ _ _ _ Hv Hp) as (Hf & (warns & Hw & He) & _).
    exists warns. split; [done|left]. split_and!; try done.
    eexists. split_and!; done.
  - destruct (prepared _ _ _ _ _ _ _ Hv Hp)
      as (Hf & (warns & Hws & He) & Hin & _ & _ & Hc).
    exists warns. split; [done|right]. exists chunks, cube, (Some msg), fs'.
    simpl. rewrite <-Hf. split_and!; try done; try lia.
    by rewrite He, <-app_assoc.
  - destruct (prepared _ _ _ _ _ _ _ Hv Hp)
      as (Hf & (warns & Hws & He) & Hin & _ & _ & Hc).
    exists warns. split; [done|right]. exists chunks, cube, None, fs'.
    simpl. rewrite <-Hf. split_and!; try done; try lia.
    + by rewrite He, <-!app_assoc.
    + fold ftmp. by rewrite Hd.
  - destruct (prepared _ _ _ _ _ _ _ Hv Hp)
      as (Hf & (warns & Hws & He) & Hin & _ & _ & Hc).
    exists warns. split; [done|right]. exists chunks, cube, None, fs'.
    simpl. rewrite <-Hf. split_and!; try done; try lia.
    + by rewrite He, <-!app_assoc.
    + fold ftmp. by rewrite Hd, Hos.
  - destruct (prepared _ _ _ _ _ _ _ Hv Hp)
      as (Hf & (warns & Hws & He) & Hin & _ & _ & Hc).
    exists warns. split; [done|right]. exists chunks, cube, None, fs'.
    simpl. rewrite <-Hf. split_and!; try done; try lia.
    + by rewrite He, <-!app_assoc.
    + fold ftmp. by rewrite Hd, Hos.
Qed.

Lemma elem_of_warns warns ev :
  warns = [] ∨ warns = [Warn chunksize_warning] →
  ev ∈ warns → ev = Warn chunksize_warning.
Proof.
  intros [-> | ->]; [by intros ?%elem_of_nil|].
  by intros ?%list_elem_of_singleton.
Qed.

End run_facts.

(** ** Where the loop stops *)

Section loop_facts.

Variable check_mandatory_standards : Cube → option string.

Abbreviation validate_cubes_ := (validate_cubes check_mandatory_standards).

(** A loop that raises has dealt with a prefix of the batch, has reordered
    the cell methods of the cube it stopped at, and has seen nothing of the
    rest. *)
Lemma validate_cubes_Raise_at ls v st e st' :
  validate_cubes_ ls v st = (Raise e, st') →
  ∃ done cube rest, ls = done ++ cube :: rest ∧
    (∀ l, l ∈ done → heap st' l = validated (heap st l) ∧
                     is_unknown (units (heap st l)) = false) ∧
    (cube ∉ done → heap st' cube = ordered (heap st cube)) ∧
    (∀ l, l ∉ done → l ≠ cube → heap st' l = heap st l) ∧
    ((∃ msg, check_mandatory_standards (heap st' cube) = Some msg ∧
             e = StandardsError msg) ∨
     (check_mandatory_standards (heap st' cube) = None ∧
      is_unknown (units (heap st cube)) = true ∧
      e = ValueError (unknown_units_msg (name (heap st cube))))).
Proof.
  revert v st. induction ls as [|c ls IH]; intros v st; [done|].
  rewrite validate_cubes_cons. simpl.
  destruct (check_mandatory_standards _) as [msg|] eqn:Hs.
  { intros [= <- <-]. exists [], c, ls. simpl. rewrite fn_lookup_insert.
    split_and!; try done.
    - by intros l ?%elem_of_nil.
    - intros l _ Hne. by rewrite fn_lookup_insert_ne.
    - left. eauto. }
  destruct (is_unknown _) eqn:Hu.
  { intros [= <- <-]. exists [], c, ls. simpl. rewrite fn_lookup_insert.
    split_and!; try done.
    - by intros l ?%elem_of_nil.
    - intros l _ Hne. by rewrite fn_lookup_insert_ne.
    - right. done. }
  intros (done & cube & rest & -> & Hdone & Hcube & Hrest & Hwhy)%IH.
  simpl in *.
  assert (Hc : ∀ l,
    (<[c := without_lsd (ordered (heap st c))]>
       (<[c := ordered (heap st c)]> (heap st))) l =
    if decide (c = l) then validated (heap st c) else heap st l).
  { intros l. case_decide as E; [subst; by rewrite fn_lookup_insert|].
    by rewrite !fn_lookup_insert_ne. }
  exists (c :: done), cube, rest. split_and!; try done.
  - intros l Hl. destruct (decide (l ∈ done)) as [Hd|Hd].
    + destruct (Hdone l Hd) as [-> Hk]. rewrite Hc in Hk |- *.
      case_decide; subst; [|done]. by rewrite validated_idemp.
    + apply elem_of_cons in Hl as [->|]; [|done].
      destruct (decide (c = cube)) as [->|Hne].
      * rewrite (Hcube Hd), Hc, decide_True by done.
        split; [|done]. unfold validated.
        by rewrite ordered_without_lsd, ordered_idemp.
      * rewrite (Hrest c Hd Hne), Hc, decide_True by done. done.
  - intros [Hne Hd]%not_elem_of_cons. rewrite (Hcube Hd), Hc.
    by rewrite decide_False.
  - intros l [Hne Hd]%not_elem_of_cons Hlc. rewrite (Hrest l Hd Hlc), Hc.
    by rewrite decide_False.
  - rewrite Hc in Hwhy. destruct (decide (c = cube)) as [->|Hne]; [|done].
    destruct Hwhy as [?|(? & Hk & ?)]; [by left|]. simpl in Hk. congruence.
Qed.

(** Whatever the outcome of the loop, a cube is as it was, or with its cell
    methods reordered, or with the precision attribute removed as well; a
    cube outside the batch is as it was; the files and the record are as
    they were. *)
Lemma validate_cubes_touch ls v st out st' :
  validate_cubes_ ls v st = (out, st') →
  files st' = files st ∧ events st' = events st ∧
  (∀ l, l ∉ ls → heap st' l = heap st l) ∧
  (∀ l, heap st' l = heap st l ∨ heap st' l = ordered (heap st l) ∨
        heap st' l = validated (heap st l)).
Proof.
  destruct out as [v'|e]; intros H.
  - apply validate_cubes_Ok in H as (Hf & He & _ & Hin & Hout & _).
    split_and!; try done. intros l.
    destruct (decide (l ∈ ls)); [right; right; auto|left; auto].
  - pose proof H as (Hf & He & _)%validate_cubes_Raise.
    apply validate_cubes_Raise_at
      in H as (done & cube & rest & -> & Hdone & Hcube & Hrest & _).
    split_and!; try done.
    + intros l Hl. apply Hrest.
      * intros Hd. apply Hl, elem_of_app. by left.
      * intros ->. apply Hl, elem_of_app. right. apply list_elem_of_here.
    + intros l. destruct (decide (l ∈ done)) as [Hd|Hd].
      { right; right. by apply Hdone. }
      destruct (decide (l = cube)) as [->|Hne]; [right; left; auto|].
      left. auto.
Qed.

End loop_facts.

(** ** What the chunk planner and the key classifier are given *)

Section plan_facts.

Variable check_mandatory_standards : Cube → option string.
Variable netcdf_save :
  list Cube → string → SaveOptions → gmap string string →
  option string * gmap string string.

Abbreviation Run_ := (Run check_mandatory_standards netcdf_save).

(** The loop changes no shape, so the planner sees the leading shapes the
    caller's cubes have. *)
Lemma leading_shapes_validated (h h' : loc → Cube) ls :
  (∀ l, l ∈ ls → h' l = validated (h l)) →
  leading_shapes (h' <$> ls) = leading_shapes (h <$> ls).
Proof.
  intros H. unfold leading_shapes. f_equal. rewrite <-!list_fmap_compose.
  apply list_fmap_ext. intros i l Hl. simpl.
  rewrite H by (by eapply list_elem_of_lookup_2). done.
Qed.

(** The state in which line 118 is reached, with what the planner decided. *)
Lemma planned ls st v st1 chunks cube st2 :
  validate_cubes check_mandatory_standards ls None st = (Ok v, st1) →
  plan_chunksizes ls v st1 = (Ok (chunks, cube), st2) →
  heap st2 = heap st1 ∧ files st2 = files st ∧
  if decide (size (leading_shapes (heap st <$> ls)) = 1)
  then ∃ first rest, ls = first :: rest ∧ cube = Some first ∧
         chunks = chunk_shape (heap st first) ∧ events st2 = events st
  else chunks = None ∧ cube = list.last ls ∧
       events st2 = events st ++ [Warn chunksize_warning].
Proof.
  intros (Hf & He & Hv & Hin & _)%validate_cubes_Ok.
  rewrite plan_chunksizes_eq, (leading_shapes_validated (heap st)) by done.
  case_decide as Hs.
  - destruct ls as [|first rest]; [done|]. intros [= <- <- <-].
    split_and!; try done. exists first, rest. split_and!; try done.
    rewrite (Hin first) by (apply elem_of_cons; by left). done.
  - intros [= <- <- <-]. simpl. rewrite Hf, He. split_and!; try done.
    rewrite Hv. by destruct (list.last ls).
Qed.

(** Every run leaves a cube as it was, or with its cell methods reordered,
    or with the precision attribute removed as well, and leaves the cubes
    outside the batch as they were. *)
Lemma Run_heap ls filename compression_level lsd fv st out st' :
  Run_ ls filename compression_level lsd fv st out st' →
  (∀ l, l ∉ ls → heap st' l = heap st l) ∧
  (∀ l, heap st' l = heap st l ∨ heap st' l = ordered (heap st l) ∨
        heap st' l = validated (heap st l)).
Proof.
  assert (Hok : ∀ v st1 chunks cube st2,
    validate_cubes check_mandatory_standards ls None st = (Ok v, st1) →
    plan_chunksizes ls v st1 = (Ok (chunks, cube), st2) →
    (∀ l, l ∉ ls → heap st2 l = heap st l) ∧
    (∀ l, heap st2 l = heap st l ∨ heap st2 l = ordered (heap st l) ∨
          heap st2 l = validated (heap st l))).
  { intros v st1 chunks cube st2 Hv Hp.
    destruct (planned _ _ _ _ _ _ _ Hv Hp) as (-> & _).
    by apply validate_cubes_touch in Hv as (_ & _ & ? & ?). }
  inversion 1 as [e st1 Hv|v st1 chunks st2 Hv Hp
                 |v st1 chunks cube st2 Hv Hp Hl
                 |v st1 chunks cube st2 msg fs' Hv Hp Hl cubes ftmp opts Hw
                 |v st1 chunks cube st2 fs' Hv Hp Hl cubes ftmp opts Hw Hd
                 |v st1 chunks cube st2 fs' data errno Hv Hp Hl cubes ftmp
                    opts Hw Hd Hos
                 |v st1 chunks cube st2 fs' data Hv Hp Hl cubes ftmp opts Hw Hd
                    Hos];
    subst; simpl; eauto.
  by apply validate_cubes_touch in Hv as (_ & _ & ? & ?).
Qed.

(** A run in full: where it stops, what the planner decided on the way,
    and what the writer was handed. *)
Lemma Run_full ls filename compression_level lsd fv st out st' :
  Run_ ls filename compression_level lsd fv st out st' →
  (∃ e, validate_cubes check_mandatory_standards ls None st = (Raise e, st') ∧
        out = Raise e) ∨
  (∃ v st1 warns chunks cube,
     validate_cubes check_mandatory_standards ls None st = (Ok v, st1) ∧
     heap st' = heap st1 ∧
     (if decide (size (leading_shapes (heap st <$> ls)) = 1)
      then warns = [] ∧
           ∃ first rest, ls = first :: rest ∧ cube = Some first ∧
                         chunks = chunk_shape (heap st first)
      else warns = [Warn chunksize_warning] ∧ chunks = None ∧
           cube = list.last ls) ∧
     match cube with
     | None =>
         out = Raise (UnboundLocalError "cube") ∧ files st' = files st ∧
         events st' = events st ++ warns
     | Some c =>
         if decide (0 ≤ compression_level < 10)%Z then
           let cubes := heap st' <$> ls in
           let ftmp := filename +:+ ".tmp" in
           let opts :=
             save_options (heap st' c) cubes chunks compression_level lsd fv
           in
           ∃ result fs',
             netcdf_save cubes ftmp opts (files st) = (result, fs') ∧
             match result with
             | Some msg =>
                 out = Raise (WriterError msg) ∧ files st' = fs' ∧
                 events st' =
                   events st ++ warns ++ [NetcdfSave cubes ftmp opts]
             | None =>
                 events st' =
                   events st ++ warns ++
                   [NetcdfSave cubes ftmp opts; Rename ftmp filename] ∧
                 match fs' !! ftmp, os_refuses st ftmp filename with
                 | Some data, None =>
                     out = Ok () ∧
                     files st' = <[filename := data]> (delete ftmp fs')
                 | Some data, Some errno =>
                     out = Raise (os_error errno ftmp) ∧ files st' = fs'
                 | None, _ =>
                     out = Raise (FileNotFoundError ftmp) ∧ files st' = fs'
                 end
             end
         else
           out = Raise (ValueError compression_level_msg) ∧
           files st' = files st ∧ events st' = events st ++ warns
     end).
Proof.
  assert (Hplan : ∀ v st1 chunks cube st2,
    validate_cubes check_mandatory_standards ls None st = (Ok v, st1) →
    plan_chunksizes ls v st1 = (Ok (chunks, cube), st2) →
    heap st2 = heap st1 ∧ files st2 = files st ∧
    ∃ warns, events st2 = events st ++ warns ∧
      if decide (size (leading_shapes (heap st <$> ls)) = 1)
      then warns = [] ∧
           ∃ first rest, ls = first :: rest ∧ cube = Some first ∧
                         chunks = chunk_shape (heap st first)
      else warns = [Warn chunksize_warning] ∧ chunks = None ∧
           cube = list.last ls).
  { intros v st1 chunks cube st2 Hv Hp.
    destruct (planned _ _ _ _ _ _ _ Hv Hp) as (Hh & Hf & Hd).
    split_and!; try done. case_decide.
    - destruct Hd as (first & rest & ? & ? & ? & He). exists [].
      rewrite app_nil_r. eauto 10.
    - destruct Hd as (? & ? & He). eauto. }
  inversion 1 as [e st1 Hv|v st1 chunks st2 Hv Hp
                 |v st1 chunks cube st2 Hv Hp Hl
                 |v st1 chunks cube st2 msg fs' Hv Hp Hl cubes ftmp opts Hw
                 |v st1 chunks cube st2 fs' Hv Hp Hl cubes ftmp opts Hw Hd
                 |v st1 chunks cube st2 fs' data errno Hv Hp Hl cubes ftmp
                    opts Hw Hd Hos
                 |v st1 chunks cube st2 fs' data Hv Hp Hl cubes ftmp opts Hw Hd
                    Hos];
    subst; [left; eauto|right..];
    try rewrite (prepared_refuses _ _ _ _ _ _ _ Hv Hp) in Hos;
    destruct (Hplan _ _ _ _ _ Hv Hp) as (Hh & Hf & warns & He & Hdec).
  - exists v, st1, warns, chunks, None. split_and!; try done.
  - exists v, st1, warns, chunks, (Some cube). split_and!; try done.
    rewrite decide_False by done. done.
  - exists v, st1, warns, chunks, (Some cube). split_and!; try done.
    rewrite decide_True by done. simpl. exists (Some msg), fs'.
    rewrite <-Hf. split_and!; try done. by rewrite He, <-app_assoc.
  - exists v, st1, warns, chunks, (Some cube). split_and!; try done.
    rewrite decide_True by done. simpl. exists None, fs'.
    rewrite <-Hf. split_and!; try done.
    + by rewrite He, <-!app_assoc.
    + fold ftmp. by rewrite Hd.
  - exists v, st1, warns, chunks, (Some cube). split_and!; try done.
    rewrite decide_True by done. simpl. exists None, fs'.
    rewrite <-Hf. split_and!; try done.
    + by rewrite He, <-!app_assoc.
    + fold ftmp. by rewrite Hd, Hos.
  - exists v, st1, warns, chunks, (Some cube). split_and!; try done.
    rewrite decide_True by done. simpl. exists None, fs'.
    rewrite <-Hf. split_and!; try done.
    + by rewrite He, <-!app_assoc.
    + fold ftmp. by rewrite Hd, Hos.
Qed.

(** What a run records, and what stands behind each call of the writer in
    that record. *)
Lemma Run_calls ls filename compression_level lsd fv st out st' :
  Run_ ls filename compression_level lsd fv st out st' →
  ∃ evs, events st' = events st ++ evs ∧
    ∀ cubes path opts, NetcdfSave cubes path opts ∈ evs →
      ∃ v st1 chunks c,
        validate_cubes check_mandatory_standards ls None st = (Ok v, st1) ∧
        heap st' = heap st1 ∧ c ∈ ls ∧ (0 ≤ compression_level < 10)%Z ∧
        (if decide (size (leading_shapes (heap st <$> ls)) = 1)
         then warnings evs = [] ∧
              ∃ rest, ls = c :: rest ∧ chunks = chunk_shape (heap st c)
         else warnings evs = [chunksize_warning] ∧ chunks = None ∧
              list.last ls = Some c) ∧
        cubes = heap st' <$> ls ∧ path = filename +:+ ".tmp" ∧
        opts = save_options (heap st' c) cubes chunks compression_level lsd fv.
Proof.
  intros [(e & Hv & ->)|(v & st1 & warns & chunks & cube & Hv & Hh & Hplan & Hrun)]%Run_full.
  { apply validate_cubes_Raise in Hv as (_ & He & _). exists [].
    rewrite app_nil_r. split; [done|]. by intros ??? ?%elem_of_nil. }
  assert (Hw : ∀ ev, ev ∈ warns → ev = Warn chunksize_warning).
  { intros ev. revert Hplan. case (decide _); intros _ (-> & _).
    - by intros ?%elem_of_nil.
    - by intros ?%list_elem_of_singleton. }
  assert (Hc : ∀ c, cube = Some c → c ∈ ls).
  { revert Hplan. case (decide _); intros _.
    - intros (_ & first & rest & -> & -> & _) c [= <-].
      apply elem_of_cons. by left.
    - intros (_ & _ & ->) c Hl. by apply last_Some_elem_of. }
  destruct cube as [c|].
  2:{ destruct Hrun as (_ & _ & He). exists warns. split; [done|].
      intros ??? Hin. by apply Hw in Hin. }
  destruct (decide (0 ≤ compression_level < 10)%Z) as [Hl|Hl].
  2:{ destruct Hrun as (_ & _ & He). exists warns. split; [done|].
      intros ??? Hin. by apply Hw in Hin. }
  destruct Hrun as (result & fs' & Hcall & Hr).
  set (cubes0 := heap st' <$> ls) in *.
  set (ftmp := filename +:+ ".tmp") in *.
  set (opts0 := save_options (heap st' c) cubes0 chunks compression_level lsd fv)
    in *.
  assert (Hev : ∃ tl,
    events st' = events st ++ warns ++ NetcdfSave cubes0 ftmp opts0 :: tl ∧
    (tl = [] ∨ tl = [Rename ftmp filename])).
  { destruct result; [destruct Hr as (_ & _ & ->)|destruct Hr as (-> & _)];
      eauto. }
  destruct Hev as (tl & He & Htl).
  exists (warns ++ NetcdfSave cubes0 ftmp opts0 :: tl). split; [done|].
  intros cubes path opts [Hin%Hw|[Hin|Hin]%elem_of_cons]%elem_of_app; [done| |].
  2:{ destruct Htl as [-> | ->];
        [by apply elem_of_nil in Hin|by apply list_elem_of_singleton in Hin]. }
  injection Hin as -> -> ->.
  exists v, st1, chunks, c.
  split; [done|]. split; [done|]. split; [by apply Hc|]. split; [done|].
  split; [|done].
  revert Hplan. case (decide _); intros _.
  - intros (-> & first & rest & -> & [= ->] & ->).
    split; [by destruct Htl as [-> | ->]|eauto].
  - intros (-> & -> & Hlast).
    split_and!; [by destruct Htl as [-> | ->]|done..].
Qed.

(** The keys of a dict are the keys it has a value for. *)
Lemma elem_of_keys (d : gmap string AttrValue) key :
  key ∈ keys d ↔ is_Some (d !! key).
Proof.
  unfold keys. rewrite list_elem_of_fmap. split.
  - intros ([k x] & -> & Hin). apply elem_of_map_to_list in Hin. eauto.
  - intros [x Hx]. exists (key, x). split; [done|].
    by apply elem_of_map_to_list.
Qed.

Lemma elem_of_local_keys_of global_keys cubes key :
  key ∈ local_keys_of global_keys cubes ↔
  (key ∉ global_keys) ∧ ∃ c, c ∈ cubes ∧ is_Some (attributes c !! key).
Proof.
  unfold local_keys_of. rewrite elem_of_list_to_set, list_elem_of_bind.
  split.
  - intros (c & (Hg & Hk%elem_of_keys)%list_elem_of_filter & Hc). eauto.
  - intros (Hg & c & Hc & Hk). exists c. split; [|done].
    apply list_elem_of_filter. split; [done|]. by apply elem_of_keys.
Qed.

End plan_facts.

(** * The claims *)

Section claims.

Variable check_mandatory_standards : Cube → option string.
Variable netcdf_save :
  list Cube → string → SaveOptions → gmap string string →
  option string * gmap string string.

Abbreviation save_netcdf' :=
  (save_netcdf check_mandatory_standards netcdf_save).

(** C7. After [_order_cell_methods] the cube's cell methods have no
    duplicates, are strictly increasing in the order of [CellMethod.__lt__],
    have the members they had, and are the same whatever order (and
    multiplicity) those members were attached in; running it again changes
    no cube. *)
Theorem order_cell_methods_canonical (cube : loc) (st : State) :
  (_order_cell_methods cube st).1 = Ok () ∧
  NoDup (cell_methods (heap (_order_cell_methods cube st).2 cube)) ∧
  StronglySorted CellMethods.lt
    (cell_methods (heap (_order_cell_methods cube st).2 cube)) ∧
  (∀ m, m ∈ cell_methods (heap (_order_cell_methods cube st).2 cube) ↔
        m ∈ cell_methods (heap st cube)) ∧
  (∀ xs, (∀ m, m ∈ xs ↔ m ∈ cell_methods (heap st cube)) →
         CellMethods.canonical xs =
         cell_methods (heap (_order_cell_methods cube st).2 cube)) ∧
  (∀ l, heap (_order_cell_methods cube (_order_cell_methods cube st).2).2 l =
        heap (_order_cell_methods cube st).2 l).
Proof.
  unfold _order_cell_methods, mbind, Py_bind, read, update. simpl.
  rewrite !fn_lookup_insert. simpl. split_and!.
  - done.
  - apply CellMethodsFacts.canonical_NoDup.
  - apply CellMethodsFacts.canonical_increasing.
  - intros m. apply CellMethodsFacts.elem_of_canonical.
  - intros xs. apply CellMethodsFacts.canonical_ext.
  - intros l. destruct (decide (cube = l)) as [->|Hne].
    + rewrite !fn_lookup_insert. apply ordered_idemp.
    + by rewrite !fn_lookup_insert_ne.
Qed.

(** C9. A single cube and the one-element list holding it are saved in
    the same way, whatever the other arguments and the state; a [CubeList]
    or any other iterable is taken as it is, in its order. *)
Theorem save_netcdf_single_cube (cube : loc) (filename : string)
    (compression_level : Z) (lsd : option Z)
    (fv : option SpecFloat.spec_float) (st : State) :
  save_netcdf' (ACube cube) filename compression_level lsd fv st =
  save_netcdf' (ACubeList [cube]) filename compression_level lsd fv st ∧
  save_netcdf' (ACube cube) filename compression_level lsd fv st =
  save_netcdf' (AnIterable [cube]) filename compression_level lsd fv st ∧
  (∀ cubes, as_cubelist (ACubeList cubes) = cubes) ∧
  (∀ cubes, as_cubelist (AnIterable cubes) = cubes) ∧
  (∀ cubes,
     save_netcdf' (AnIterable cubes) filename compression_level lsd fv st =
     save_netcdf' (ACubeList cubes) filename compression_level lsd fv st).
Proof. by split_and!. Qed.

(** C4 (the code at the failing input). On an empty batch the loop binds
    nothing to [cube], the chunk planner warns, and line 127 reads the
    unbound local: [UnboundLocalError], whatever the other arguments. *)
Theorem save_netcdf_empty_batch (filename : string) (compression_level : Z)
    (lsd : option Z) (fv : option SpecFloat.spec_float) (st : State) :
  save_netcdf' (AnIterable []) filename compression_level lsd fv st =
  (Raise (UnboundLocalError "cube"),
   add_event (Warn chunksize_warning) st) ∧
  save_netcdf' (ACubeList []) filename compression_level lsd fv st =
  (Raise (UnboundLocalError "cube"),
   add_event (Warn chunksize_warning) st).
Proof. split; reflexivity. Qed.

(** C10. When [save_netcdf] raises the compression-level error, every cube
    of the batch has already been changed in the store: its cell methods are
    the canonical (sorted, duplicate-free) sequence and its
    ["least_significant_digit"] attribute is gone. *)
Theorem cubes_mutated_before_level_check (cubelist : CubesArg)
    (filename : string) (compression_level : Z) (lsd : option Z)
    (fv : option SpecFloat.spec_float) (st : State) (cube : loc) :
  ¬ (0 ≤ compression_level < 10)%Z →
  (save_netcdf' cubelist filename compression_level lsd fv st).1 =
    Raise (ValueError compression_level_msg) →
  cube ∈ as_cubelist cubelist →
  let before := heap st cube in
  let after :=
    heap (save_netcdf' cubelist filename compression_level lsd fv st).2 cube in
  cell_methods after = CellMethods.canonical (cell_methods before) ∧
  NoDup (cell_methods after) ∧
  StronglySorted CellMethods.lt (cell_methods after) ∧
  attributes after = delete "least_significant_digit" (attributes before) ∧
  attributes after !! "least_significant_digit" = None.
Proof.
  intros _ Hout Hcube.
  pose proof (save_netcdf_Run check_mandatory_standards netcdf_save
                cubelist filename compression_level lsd fv st) as HR.
  rewrite Hout in HR.
  apply Run_level_error in HR as (_ & _ & _ & _ & Hin & _).
  simpl. rewrite (Hin cube Hcube). simpl. split_and!; try done.
  - apply CellMethodsFacts.canonical_NoDup.
  - apply CellMethodsFacts.canonical_increasing.
  - apply lookup_delete_eq.
Qed.

(** A loop that raises is the whole call. *)
Lemma save_netcdf_loop_raises (cubelist : CubesArg) (filename : string)
    (compression_level : Z) (lsd : option Z)
    (fv : option SpecFloat.spec_float) (st : State) (e : Exn) (st1 : State) :
  validate_cubes check_mandatory_standards (as_cubelist cubelist) None st =
    (Raise e, st1) →
  save_netcdf' cubelist filename compression_level lsd fv st = (Raise e, st1).
Proof. intros Hv. unfold save_netcdf. by rewrite bind_run, Hv. Qed.


(** C8. Whenever [save_netcdf] calls the writer, the cubes it hands over
    are those of the batch as they then are in the store, none of them has a
    ["least_significant_digit"] attribute, and each has the attributes it
    had less that one; popping the attribute from a cube that has none
    changes no cube. *)
Theorem stale_precision_attribute_removed (cubelist : CubesArg)
    (filename : string) (compression_level : Z) (lsd : option Z)
    (fv : option SpecFloat.spec_float) (st : State) :
  (∃ evs,
     events (save_netcdf' cubelist filename compression_level lsd fv st).2 =
       events st ++ evs ∧
     ∀ cubes path opts, NetcdfSave cubes path opts ∈ evs →
       cubes =
         heap (save_netcdf' cubelist filename compression_level lsd fv st).2
           <$> as_cubelist cubelist ∧
       (∀ c, c ∈ cubes → attributes c !! "least_significant_digit" = None) ∧
       (∀ l, l ∈ as_cubelist cubelist →
          attributes
            (heap (save_netcdf' cubelist filename compression_level lsd fv
                     st).2 l) =
          delete "least_significant_digit" (attributes (heap st l)))) ∧
  (∀ l st0,
     attributes (heap st0 l) !! "least_significant_digit" = None →
     ∀ l', heap (attributes_pop l "least_significant_digit" st0).2 l' =
           heap st0 l').
Proof.
  split.
  - pose proof (save_netcdf_Run check_mandatory_standards netcdf_save
                  cubelist filename compression_level lsd fv st) as HR.
    apply Run_trace in HR as (warns & Hw & [(He & _)|HR]).
    { exists warns. split; [done|]. intros cubes path opts Hin.
      by apply (elem_of_warns _ _ Hw) in Hin. }
    destruct HR as (chunks & cube & result & fs' & _ & _ & Hin & _ & Hr).
    assert (Hcalls : ∃ tl,
      events (save_netcdf' cubelist filename compression_level lsd fv st).2 =
        events st ++ warns ++
        NetcdfSave
          (heap (save_netcdf' cubelist filename compression_level lsd fv st).2
             <$> as_cubelist cubelist)
          (filename +:+ ".tmp")
          (save_options
             (heap (save_netcdf' cubelist filename compression_level lsd fv
                      st).2 cube)
             (heap (save_netcdf' cubelist filename compression_level lsd fv
                      st).2 <$> as_cubelist cubelist)
             chunks compression_level lsd fv) :: tl ∧
      (tl = [] ∨ tl = [Rename (filename +:+ ".tmp") filename])).
    { destruct result; [destruct Hr as (_ & _ & ->)|destruct Hr as (-> & _)];
        eauto. }
    destruct Hcalls as (tl & -> & Htl). eexists. split; [done|].
    intros cubes path opts
      [Hev%(elem_of_warns _ _ Hw)|[Hev|Hev]%elem_of_cons]%elem_of_app;
      [done| |by destruct Htl as [-> | ->];
                 [apply elem_of_nil in Hev
                 |apply list_elem_of_singleton in Hev]].
    injection Hev as -> -> ->. split_and!; [done| |].
    + intros c (l & -> & Hl)%list_elem_of_fmap. rewrite (Hin l Hl). simpl.
      apply lookup_delete_eq.
    + intros l Hl. by rewrite (Hin l Hl).
  - intros l st0 Habs l'. unfold attributes_pop, update. simpl.
    destruct (decide (l = l')) as [->|Hne].
    + rewrite fn_lookup_insert. by apply without_lsd_absent.
    + by rewrite fn_lookup_insert_ne.
Qed.

(** C6, as the code has it. A level outside [0, 9] leaves the files
    untouched and records at most the chunk-size warning, so neither the
    writer nor the rename is called; on a batch that is not empty the call
    fails: with the compression-level [ValueError] whenever the loop over
    the cubes, which runs first, completes, and otherwise with the error the
    loop raises, which is the error of the standards check on a cube of the
    batch or the unknown-units [ValueError] naming a cube of the batch that
    has unknown units. A level inside [0, 9]
    never gives that error, and then the writer is called with that level,
    with the shuffle filter, and with deflate exactly when the level is
    positive. *)
Theorem compression_level_check (cubelist : CubesArg) (filename : string)
    (compression_level : Z) (lsd : option Z)
    (fv : option SpecFloat.spec_float) (st : State) :
  (¬ (0 ≤ compression_level < 10)%Z →
   files (save_netcdf' cubelist filename compression_level lsd fv st).2 =
     files st ∧
   (∃ warns, (warns = [] ∨ warns = [Warn chunksize_warning]) ∧
      events (save_netcdf' cubelist filename compression_level lsd fv st).2 =
        events st ++ warns) ∧
   (as_cubelist cubelist ≠ [] →
      (∃ e, (save_netcdf' cubelist filename compression_level lsd fv st).1 =
            Raise e) ∧
      (∀ v st1,
         validate_cubes check_mandatory_standards (as_cubelist cubelist)
           None st = (Ok v, st1) →
         (save_netcdf' cubelist filename compression_level lsd fv st).1 =
           Raise (ValueError compression_level_msg)) ∧
      (∀ e st1,
         validate_cubes check_mandatory_standards (as_cubelist cubelist)
           None st = (Raise e, st1) →
         (save_netcdf' cubelist filename compression_level lsd fv st).1 =
           Raise e ∧
         e ≠ ValueError compression_level_msg ∧
         ∃ stop, stop ∈ as_cubelist cubelist ∧
           ((∃ msg,
               check_mandatory_standards
                 (heap (save_netcdf' cubelist filename compression_level lsd
                          fv st).2 stop) = Some msg ∧
               e = StandardsError msg) ∨
            (is_unknown (units (heap st stop)) = true ∧
             e = ValueError (unknown_units_msg (name (heap st stop)))))))) ∧
  ((0 ≤ compression_level < 10)%Z →
   (save_netcdf' cubelist filename compression_level lsd fv st).1 ≠
     Raise (ValueError compression_level_msg) ∧
   (∀ v st1, as_cubelist cubelist ≠ [] →
      validate_cubes check_mandatory_standards (as_cubelist cubelist) None st
        = (Ok v, st1) →
      ∃ cubes opts,
        NetcdfSave cubes (filename +:+ ".tmp") opts ∈
          events (save_netcdf' cubelist filename compression_level lsd fv
                    st).2 ∧
        complevel opts = compression_level ∧ shuffle opts = true ∧
        (zlib opts = true ↔ (0 < compression_level)%Z))).
Proof.
  pose proof (save_netcdf_Run check_mandatory_standards netcdf_save
                cubelist filename compression_level lsd fv st) as HR.
  split; intros Hl.
  - apply Run_out_of_range in HR as (He & Hf & Hw & Hc); [|done].
    split_and!; try done. intros Hnil. split; [done|]. split; [eauto|].
    intros e st1 Hv.
    rewrite (save_netcdf_loop_raises _ filename compression_level lsd fv _ _
               _ Hv). simpl.
    apply validate_cubes_Raise_at in Hv
      as (done & stop & rest & Hls & _ & _ & _ & Hr).
    split; [done|]. split.
    + destruct Hr as [(msg & _ & ->)|(_ & _ & ->)]; [done|].
      intros [= E]. by apply PyStrFacts.unknown_units_msg_ne in E.
    + exists stop. split.
      { rewrite Hls. apply elem_of_app. right. apply list_elem_of_here. }
      destruct Hr as [(msg & Hc' & ->)|(_ & Hk & ->)]; [left|right]; eauto.
  - apply Run_in_range in HR as (Hne & Hcall); [|done]. split; [done|].
    intros v st1 Hnil Hv.
    destruct (Hcall v st1 Hnil Hv) as (cubes & opts & Hev & Hc & Hs & Hz).
    exists cubes, opts. split_and!; try done.
    rewrite Hz. apply bool_decide_eq_true.
Qed.

(** C1. Given a writer that touches no path but the one it is handed:
    the writer is only ever called on [filename + ".tmp"]; a rename happens
    only from that path to [filename] and only after a call of the writer
    that returned; when the call of the writer raises, its error is the
    outcome, nothing is renamed and [filename] holds what it held (or
    nothing, if it held nothing); when [save_netcdf] returns, [filename]
    holds what the writer left at the temporary path, which is gone; and a
    run that never calls the writer leaves the filesystem as it was.
    Moreover the call does serialize and rename: on a batch that is not
    empty, gets through the loop and comes with a level from 0 to 9, the
    writer is called exactly once, on the cubes of the batch and on the
    temporary path; and after a call of the writer that returned, exactly
    one rename from the temporary path to [filename] is made, upon which the
    call returns with the writer's file under the name [filename] if
    [os.rename] succeeds, and raises the error of [os.rename] with
    [filename] holding what it held if it does not. *)
Theorem atomic_write
    (Hframe : ∀ cubes path opts fs q,
       q ≠ path → (netcdf_save cubes path opts fs).2 !! q = fs !! q)
    (cubelist : CubesArg) (filename : string) (compression_level : Z)
    (lsd : option Z) (fv : option SpecFloat.spec_float) (st : State) :
  let ftmp := filename +:+ ".tmp" in
  let out := (save_netcdf' cubelist filename compression_level lsd fv st).1 in
  let st' := (save_netcdf' cubelist filename compression_level lsd fv st).2 in
  ∃ evs, events st' = events st ++ evs ∧
    (∀ cubes path opts, NetcdfSave cubes path opts ∈ evs → path = ftmp) ∧
    (∀ src dst, Rename src dst ∈ evs →
       src = ftmp ∧ dst = filename ∧
       ∃ cubes opts fs',
         NetcdfSave cubes ftmp opts ∈ evs ∧
         netcdf_save cubes ftmp opts (files st) = (None, fs')) ∧
    (∀ cubes opts msg fs',
       NetcdfSave cubes ftmp opts ∈ evs →
       netcdf_save cubes ftmp opts (files st) = (Some msg, fs') →
       out = Raise (WriterError msg) ∧
       (∀ src dst, Rename src dst ∉ evs) ∧
       files st' !! filename = files st !! filename) ∧
    (out = Ok () →
       ∃ cubes opts fs' data,
         NetcdfSave cubes ftmp opts ∈ evs ∧
         netcdf_save cubes ftmp opts (files st) = (None, fs') ∧
         fs' !! ftmp = Some data ∧
         files st' !! filename = Some data ∧ files st' !! ftmp = None) ∧
    ((∀ cubes path opts, NetcdfSave cubes path opts ∉ evs) →
       files st' = files st) ∧
    (∀ v st1,
       validate_cubes check_mandatory_standards (as_cubelist cubelist) None
         st = (Ok v, st1) →
       as_cubelist cubelist ≠ [] → (0 ≤ compression_level < 10)%Z →
       ∃ opts,
         writer_calls evs = [(ftmp, opts)] ∧
         NetcdfSave (heap st' <$> as_cubelist cubelist) ftmp opts ∈ evs) ∧
    (∀ cubes opts fs',
       NetcdfSave cubes ftmp opts ∈ evs →
       netcdf_save cubes ftmp opts (files st) = (None, fs') →
       renames evs = [(ftmp, filename)] ∧
       (∀ data,
          fs' !! ftmp = Some data → os_refuses st ftmp filename = None →
          out = Ok () ∧
          files st' !! filename = Some data ∧ files st' !! ftmp = None) ∧
       (∀ data errno,
          fs' !! ftmp = Some data →
          os_refuses st ftmp filename = Some errno →
          out = Raise (os_error errno ftmp) ∧ files st' = fs' ∧
          files st' !! filename = files st !! filename) ∧
       (fs' !! ftmp = None →
          out = Raise (FileNotFoundError ftmp) ∧ files st' = fs' ∧
          files st' !! filename = files st !! filename)).
Proof.
  intros ftmp out st'.
  assert (Hne : filename ≠ ftmp).
  { intros E. symmetry in E. by apply PyStrFacts.append_ne in E. }
  pose proof (save_netcdf_Run check_mandatory_standards netcdf_save
                cubelist filename compression_level lsd fv st) as HR.
  fold out st' in HR.
  apply Run_trace in HR
    as (warns & Hw & [(He & Hf & e & Hout & Hnw & Hwhy)|HR]).
  { exists warns. split_and!; try done.
    - intros ??? Hin. by apply (elem_of_warns _ _ Hw) in Hin.
    - intros ?? Hin. by apply (elem_of_warns _ _ Hw) in Hin.
    - intros ???? Hin. by apply (elem_of_warns _ _ Hw) in Hin.
    - intros Hok. by rewrite Hok in Hout.
    - intros v st1 Hv Hnil Hl. by destruct (Hwhy v st1 Hv Hnil).
    - intros ??? Hin. by apply (elem_of_warns _ _ Hw) in Hin. }
  destruct HR as (chunks & cube & result & fs' & _ & _ & _ & Hcall & Hr).
  fold ftmp in Hcall, Hr.
  set (cubes0 := heap st' <$> as_cubelist cubelist) in *.
  set (opts0 :=
         save_options (heap st' cube) cubes0 chunks compression_level lsd fv)
    in *.
  assert (Hfr : fs' !! filename = files st !! filename).
  { rewrite <-(Hframe cubes0 ftmp opts0 (files st) filename Hne).
    by rewrite Hcall. }
  destruct result as [msg|].
  - destruct Hr as (Hout & Hf & He).
    exists (warns ++ [NetcdfSave cubes0 ftmp opts0]). split; [done|].
    assert (Hev : ∀ ev, ev ∈ warns ++ [NetcdfSave cubes0 ftmp opts0] →
                        ev = Warn chunksize_warning ∨
                        ev = NetcdfSave cubes0 ftmp opts0).
    { intros ev [?%(elem_of_warns _ _ Hw)|?%list_elem_of_singleton]%elem_of_app;
        auto. }
    split_and!.
    + by intros ??? [?|[= _ -> _]]%Hev.
    + by intros ?? [?|?]%Hev.
    + intros cubes opts msg' fs'' [?|[= -> ->]]%Hev Hcall'; [done|].
      rewrite Hcall in Hcall'. injection Hcall' as <- <-.
      split_and!; [done| |].
      * by intros ?? [?|?]%Hev.
      * by rewrite Hf.
    + intros Hok. by rewrite Hok in Hout.
    + intros Hnone. exfalso. apply (Hnone cubes0 ftmp opts0).
      apply elem_of_app. right. apply list_elem_of_here.
    + intros _ _ _ _ _. exists opts0. split.
      * by destruct Hw as [-> | ->].
      * apply elem_of_app. right. apply list_elem_of_here.
    + intros cubes opts fs'' [?|[= -> ->]]%Hev Hcall'; [done|].
      rewrite Hcall in Hcall'. done.
  - destruct Hr as (He & Hr).
    exists (warns ++ [NetcdfSave cubes0 ftmp opts0; Rename ftmp filename]).
    split; [done|].
    assert (Hcalled : NetcdfSave cubes0 ftmp opts0 ∈
              warns ++ [NetcdfSave cubes0 ftmp opts0; Rename ftmp filename]).
    { apply elem_of_app. right. apply list_elem_of_here. }
    assert (Hev : ∀ ev,
      ev ∈ warns ++ [NetcdfSave cubes0 ftmp opts0; Rename ftmp filename] →
      ev = Warn chunksize_warning ∨ ev = NetcdfSave cubes0 ftmp opts0 ∨
      ev = Rename ftmp filename).
    { intros ev [?%(elem_of_warns _ _ Hw)|Hin]%elem_of_app; [auto|].
      apply elem_of_cons in Hin as [?|?%list_elem_of_singleton]; auto. }
    split_and!.
    + by intros ??? [?|[[= _ -> _]|?]]%Hev.
    + intros ?? [?|[?|[= -> ->]]]%Hev; try done.
      split_and!; try done. by exists cubes0, opts0, fs'.
    + intros cubes opts msg' fs'' [?|[[= -> ->]|?]]%Hev Hcall'; try done.
      rewrite Hcall in Hcall'. done.
    + intros Hok. destruct (fs' !! ftmp) as [data|] eqn:Hd.
      * destruct (os_refuses st ftmp filename) as [errno|].
        { destruct Hr as (Hout & _). by rewrite Hok in Hout. }
        destruct Hr as (_ & Hf). exists cubes0, opts0, fs', data.
        split_and!; try done.
        -- rewrite Hf. apply lookup_insert_eq.
        -- rewrite Hf. rewrite lookup_insert_ne by done.
           apply lookup_delete_eq.
      * destruct Hr as (Hout & _). by rewrite Hok in Hout.
    + intros Hnone. exfalso. by apply (Hnone cubes0 ftmp opts0).
    + intros _ _ _ _ _. exists opts0. split; [|done].
      by destruct Hw as [-> | ->].
    + intros cubes opts fs'' [?|[[= -> ->]|?]]%Hev Hcall'; try done.
      rewrite Hcall in Hcall'. injection Hcall' as <-.
      split; [by destruct Hw as [-> | ->]|]. split_and!.
      * intros data Hd Hos. rewrite Hd, Hos in Hr. destruct Hr as (Hout & Hf).
        split_and!; [done|..].
        -- rewrite Hf. apply lookup_insert_eq.
        -- rewrite Hf. rewrite lookup_insert_ne by done.
           apply lookup_delete_eq.
      * intros data errno Hd Hos. rewrite Hd, Hos in Hr.
        destruct Hr as (Hout & Hf). split_and!; try done. by rewrite Hf.
      * intros Hd. rewrite Hd in Hr.
        destruct Hr as (Hout & Hf). split_and!; try done. by rewrite Hf.
Qed.

End claims.


(** ** The claims at concrete inputs *)

Module Concrete.
Import Examples.

Lemma writer_frame cubes path opts fs q :
  q ≠ path → (writer cubes path opts fs).2 !! q = fs !! q.
Proof. intros Hne. simpl. by apply lookup_insert_ne. Qed.

Lemma failing_writer_frame cubes path opts fs q :
  q ≠ path → (failing_writer cubes path opts fs).2 !! q = fs !! q.
Proof. intros Hne. simpl. by apply lookup_insert_ne. Qed.

(** C1 at a writer that fails after leaving a truncated temporary file,
    with an older file at the target path: the older file is still there.
    And at a writer that creates its file: it is called once, on the
    temporary path; its file ends under the target's name when the rename
    succeeds, and stays at the temporary path, with the error of
    [os.rename] as the outcome, when the target is a directory. *)
Lemma atomic_write_witness :
  (∀ cubes path opts fs q,
     q ≠ path → (failing_writer cubes path opts fs).2 !! q = fs !! q) ∧
  (save_netcdf standards_pass failing_writer (ACube 0) "out.nc" 1 None None
     (state [temperature] (Some "old"))).1 = Raise (WriterError "disk full") ∧
  files (save_netcdf standards_pass failing_writer (ACube 0) "out.nc" 1 None
           None (state [temperature] (Some "old"))).2 !! "out.nc" =
    Some "old" ∧
  (∃ opts,
     writer_calls
       (events (save_netcdf standards_pass writer (ACube 0) "out.nc" 1 None
                  None (state [temperature] (Some "old"))).2) =
       [("out.nc.tmp", opts)]) ∧
  (save_netcdf standards_pass writer (ACube 0) "out.nc" 1 None None
     (state [temperature] (Some "old"))).1 = Ok () ∧
  files (save_netcdf standards_pass writer (ACube 0) "out.nc" 1 None None
           (state [temperature] (Some "old"))).2 !! "out.nc" =
    Some "CDF-complete" ∧
  (save_netcdf standards_pass writer (ACube 0) "out.nc" 1 None None
     (directory_at "out.nc" (state [temperature] None))).1 =
    Raise (OSError EISDIR "out.nc.tmp") ∧
  files (save_netcdf standards_pass writer (ACube 0) "out.nc" 1 None None
           (directory_at "out.nc" (state [temperature] None))).2
    !! "out.nc.tmp" = Some "CDF-complete".
Proof.
  split; [exact failing_writer_frame|].
  destruct (atomic_write standards_pass failing_writer failing_writer_frame
              (ACube 0) "out.nc" 1 None None
              (state [temperature] (Some "old")))
    as (evs & He & _ & _ & Hfail & _).
  vm_compute in He. subst evs.
  edestruct Hfail as (Hout & _ & Hfile);
    [apply list_elem_of_here|reflexivity|].
  split; [exact Hout|]. split; [rewrite Hfile; reflexivity|].
  destruct (atomic_write standards_pass writer writer_frame
              (ACube 0) "out.nc" 1 None None
              (state [temperature] (Some "old")))
    as (evs & He' & _ & _ & _ & _ & _ & Hlive & Hren).
  edestruct Hlive as (opts & Hcalls & _); [reflexivity|done|lia|].
  vm_compute in He'. subst evs.
  split; [exists opts; exact Hcalls|].
  edestruct Hren as (_ & Hmoved & _);
    [apply list_elem_of_here|reflexivity|].
  edestruct Hmoved as (Hok & Htarget & _); [reflexivity|reflexivity|].
  split; [exact Hok|]. split; [exact Htarget|].
  destruct (atomic_write standards_pass writer writer_frame
              (ACube 0) "out.nc" 1 None None
              (directory_at "out.nc" (state [temperature] None)))
    as (evs & He2 & _ & _ & _ & _ & _ & _ & Hren2).
  vm_compute in He2. subst evs.
  edestruct Hren2 as (_ & _ & Hrefused & _);
    [apply list_elem_of_here|reflexivity|].
  edestruct Hrefused as (Hout2 & Hfiles & _); [reflexivity|reflexivity|].
  split; [exact Hout2|]. rewrite Hfiles. reflexivity.
Defined.



(** C10 at a cube with a repeated cell method and a stale precision
    attribute, saved with level 10. *)
Lemma cubes_mutated_before_level_check_witness :
  ¬ (0 ≤ 10 < 10)%Z ∧
  (save_netcdf standards_pass writer (ACube 0) "out.nc" 10 None None
     (state [temperature] None)).1 = Raise (ValueError compression_level_msg) ∧
  0 ∈ as_cubelist (ACube 0) ∧
  cell_methods
    (heap (save_netcdf standards_pass writer (ACube 0) "out.nc" 10 None None
             (state [temperature] None)).2 0) =
    [cm "maximum" ["time"]; cm "mean" ["time"]] ∧
  attributes
    (heap (save_netcdf standards_pass writer (ACube 0) "out.nc" 10 None None
             (state [temperature] None)).2 0) !! "least_significant_digit" =
    None.
Proof.
  assert (Hl : ¬ (0 ≤ 10 < 10)%Z) by lia.
  assert (Hin : 0 ∈ as_cubelist (ACube 0)) by apply list_elem_of_here.
  split_and!; [exact Hl|reflexivity|exact Hin| |].
  - destruct (cubes_mutated_before_level_check standards_pass writer
                (ACube 0) "out.nc" 10 None None (state [temperature] None) 0
                Hl eq_refl Hin) as (Hcm & _).
    rewrite Hcm. vm_compute. reflexivity.
  - destruct (cubes_mutated_before_level_check standards_pass writer
                (ACube 0) "out.nc" 10 None None (state [temperature] None) 0
                Hl eq_refl Hin) as (_ & _ & _ & _ & Habs).
    exact Habs.
Defined.

(** C6 as stated fails: with level 10 and a cube of unknown units the
    error raised is the unknown-units error of the loop, which runs first,
    not the compression-level error. *)
Lemma level_error_after_metadata_errors :
  ¬ (0 ≤ 10 < 10)%Z ∧
  (save_netcdf standards_pass writer (ACube 0) "out.nc" 10 None None
     (state [mystery] None)).1 =
    Raise (ValueError "mystery has unknown units") ∧
  (save_netcdf standards_pass writer (ACube 0) "out.nc" 10 None None
     (state [mystery] None)).1 ≠ Raise (ValueError compression_level_msg).
Proof.
  split_and!; [lia|reflexivity|].
  intros E. vm_compute in E. discriminate E.
Qed.

(** C8 at a cube saved earlier with two digits of precision and saved again
    with three: the writer is called once, on a cube without the stale
    attribute. *)
Lemma stale_precision_attribute_removed_witness :
  attributes temperature !! "least_significant_digit" = Some (AttrInt 2) ∧
  ∃ cubes path opts,
    events (save_netcdf standards_pass writer (ACube 0) "out.nc" 1 (Some 3%Z)
              None (state [temperature] None)).2 =
      [NetcdfSave cubes path opts; Rename "out.nc.tmp" "out.nc"] ∧
    least_significant_digit opts = Some 3%Z ∧
    ∀ c, c ∈ cubes → attributes c !! "least_significant_digit" = None.
Proof.
  split; [reflexivity|].
  destruct (stale_precision_attribute_removed standards_pass writer (ACube 0)
              "out.nc" 1 (Some 3%Z) None (state [temperature] None))
    as [(evs & He & Hcall) _].
  simpl app in He.
  destruct evs as [|[msg|cubes path opts|src dst] evs];
    try (vm_compute in He; discriminate He).
  exists cubes, path, opts.
  destruct (Hcall cubes path opts (list_elem_of_here _ _)) as (_ & Habs & _).
  split_and!; [|vm_compute in He; by injection He as _ _ <- _|exact Habs].
  rewrite He. f_equal. vm_compute in He. by injection He as _ _ _ <-.
Defined.

(** C6 as the code has it, at a batch that gets through the loop: level 10
    gives the compression-level error and leaves the older file alone, level
    0 does not give that error. *)
Lemma compression_level_check_witness :
  ¬ (0 ≤ 10 < 10)%Z ∧ (0 ≤ 0 < 10)%Z ∧
  as_cubelist (ACube 0) ≠ [] ∧
  (save_netcdf standards_pass writer (ACube 0) "out.nc" 10 None None
     (state [temperature] (Some "old"))).1 =
    Raise (ValueError compression_level_msg) ∧
  files (save_netcdf standards_pass writer (ACube 0) "out.nc" 10 None None
           (state [temperature] (Some "old"))).2 = {["out.nc" := "old"]} ∧
  (save_netcdf standards_pass writer (ACube 0) "out.nc" 0 None None
     (state [temperature] (Some "old"))).1 ≠
    Raise (ValueError compression_level_msg).
Proof.
  assert (Hout : ¬ (0 ≤ 10 < 10)%Z) by lia.
  assert (Hin : (0 ≤ 0 < 10)%Z) by lia.
  assert (Hne : as_cubelist (ACube 0) ≠ []) by done.
  split; [exact Hout|]. split; [exact Hin|]. split; [exact Hne|].
  split; [|split].
  - destruct (compression_level_check standards_pass writer (ACube 0)
                "out.nc" 10 None None (state [temperature] (Some "old")))
      as [Hbad _].
    destruct (Hbad Hout) as (_ & _ & Hfail).
    destruct (Hfail Hne) as (_ & Hmsg & _).
    destruct (validate_cubes standards_pass (as_cubelist (ACube 0)) None
                (state [temperature] (Some "old"))) as [[v|e] st1] eqn:Hv.
    + exact (Hmsg v st1 eq_refl).
    + vm_compute in Hv. discriminate Hv.
  - destruct (compression_level_check standards_pass writer (ACube 0)
                "out.nc" 10 None None (state [temperature] (Some "old")))
      as [Hbad _].
    destruct (Hbad Hout) as (Hf & _). exact Hf.
  - destruct (compression_level_check standards_pass writer (ACube 0)
                "out.nc" 0 None None (state [temperature] (Some "old")))
      as [_ Hgood].
    destruct (Hgood Hin) as (Hok & _). exact Hok.
Defined.

(** C2 at the failing input. Both cubes have the leading shape [(3, 5)], so
    [cube] is rebound to the first cube of the list. With the cube carrying
    ["mosg__grid_type"] second, that key is handed to the writer as a local
    key; with the same two cubes in the other order it is not. *)
Theorem mosg_key_of_later_cube_is_local :
  (save_netcdf standards_pass writer (ACubeList [0; 1]) "out.nc" 1 None None
     (state [plain; gridded] None)).1 = Ok () ∧
  (local_keys ∘ snd) <$>
    writer_calls
      (events (save_netcdf standards_pass writer (ACubeList [0; 1]) "out.nc"
                 1 None None (state [plain; gridded] None)).2) =
    [{["mosg__grid_type"]}] ∧
  (local_keys ∘ snd) <$>
    writer_calls
      (events (save_netcdf standards_pass writer (ACubeList [0; 1]) "out.nc"
                 1 None None (state [gridded; plain] None)).2) =
    [∅] ∧
  PyStr.startswith "mosg__" "mosg__grid_type" = true ∧
  "mosg__grid_type" ∈ keys (attributes gridded).
Proof.
  split_and!; try (vm_compute; reflexivity).
  vm_compute. apply list_elem_of_here.
Qed.

(** C3 at the failing inputs. Cubes of shapes [(3, 5, 5)] and [(4, 5, 5)]
    agree on their two trailing dimensions: the code warns and plans no
    chunks. Cubes of shapes [(2, 3, 4, 5)] and [(2, 3, 6, 7)] disagree on
    them: the code plans the chunks [(1, 1, 4, 5)] and does not warn. *)
Theorem chunks_follow_leading_dimensions :
  ((chunksizes ∘ snd) <$>
     writer_calls
       (events (save_netcdf standards_pass writer (ACubeList [0; 1])
                  "out.nc" 1 None None
                  (state [three_steps; four_steps] None)).2) = [None] ∧
   warnings
     (events (save_netcdf standards_pass writer (ACubeList [0; 1]) "out.nc"
                1 None None (state [three_steps; four_steps] None)).2) =
     [chunksize_warning]) ∧
  ((chunksizes ∘ snd) <$>
     writer_calls
       (events (save_netcdf standards_pass writer (ACubeList [0; 1])
                  "out.nc" 1 None None (state [coarse; fine] None)).2) =
     [Some [1; 1; 4; 5]] ∧
   warnings
     (events (save_netcdf standards_pass writer (ACubeList [0; 1]) "out.nc"
                1 None None (state [coarse; fine] None)).2) = []).
Proof. split_and!; vm_compute; reflexivity. Qed.

End Concrete.

(** * Further properties of [save.py] *)

(** ** Further properties of [save_netcdf] *)

Section extras.

Variable check_mandatory_standards : Cube → option string.
Variable netcdf_save :
  list Cube → string → SaveOptions → gmap string string →
  option string * gmap string string.

Abbreviation save_netcdf_ :=
  (save_netcdf check_mandatory_standards netcdf_save).

(** X1. Whatever the outcome, [save_netcdf] changes nothing of a cube but
    its cell methods, which it leaves or makes canonical, and its
    attributes, which it leaves or relieves of ["least_significant_digit"];
    name, units and shape stay, and a cube that is not in the batch stays as
    it was. *)
Theorem save_netcdf_store_frame (cubelist : CubesArg) (filename : string)
    (compression_level : Z) (lsd : option Z)
    (fv : option SpecFloat.spec_float) (st : State) (l : loc) :
  let before := heap st l in
  let after :=
    heap (save_netcdf_ cubelist filename compression_level lsd fv st).2 l in
  name after = name before ∧ units after = units before ∧
  shape after = shape before ∧
  (cell_methods after = cell_methods before ∨
   cell_methods after = CellMethods.canonical (cell_methods before)) ∧
  (attributes after = attributes before ∨
   attributes after =
     delete "least_significant_digit" (attributes before)) ∧
  (l ∉ as_cubelist cubelist → after = before).
Proof.
  intros before after.
  pose proof (save_netcdf_Run check_mandatory_standards netcdf_save
                cubelist filename compression_level lsd fv st) as HR.
  apply Run_heap in HR as (Hout & Hany). fold after in Hout, Hany.
  specialize (Hany l). fold after before in Hany.
  split_and!; [..|by apply Hout];
    destruct Hany as [-> | [-> | ->]]; auto.
Qed.

(** X2. [save_netcdf] returns normally only for a batch that is not empty,
    with a compression level from 0 to 9 and no cube of unknown units; every
    cube of the batch then has canonical cell methods and no
    ["least_significant_digit"] attribute. *)
Theorem save_netcdf_returns_only_valid (cubelist : CubesArg)
    (filename : string) (compression_level : Z) (lsd : option Z)
    (fv : option SpecFloat.spec_float) (st : State) :
  (save_netcdf_ cubelist filename compression_level lsd fv st).1 = Ok () →
  as_cubelist cubelist ≠ [] ∧ (0 ≤ compression_level < 10)%Z ∧
  ∀ l, l ∈ as_cubelist cubelist →
    is_unknown (units (heap st l)) = false ∧
    heap (save_netcdf_ cubelist filename compression_level lsd fv st).2 l =
      validated (heap st l).
Proof.
  intros Hok.
  pose proof (save_netcdf_Run check_mandatory_standards netcdf_save
                cubelist filename compression_level lsd fv st) as HR.
  rewrite Hok in HR.
  apply Run_full in HR
    as [(e & _ & [=])|(v & st1 & warns & chunks & cube & Hv & Hh & Hplan & Hrun)].
  apply validate_cubes_Ok in Hv as (_ & _ & Hlast & Hin & _ & Hk).
  destruct cube as [c|]; [|by destruct Hrun].
  destruct (decide (0 ≤ compression_level < 10)%Z) as [Hl|Hl];
    [|by destruct Hrun].
  split_and!; try done; try lia.
  - intros Hnil. rewrite Hnil in Hplan. revert Hplan.
    case (decide _); [by intros _ (_ & ? & ? & ? & _)|by intros _ (_ & _ & ?)].
  - intros l Hl'. rewrite Hh. auto.
Qed.


(** X4. Whenever the writer is called: if the cubes of the batch have one
    and the same [shape[:2]], no warning was issued and the chunk sizes are
    those computed from the first cube of the batch; otherwise exactly the
    varying-dimensions warning was issued and no chunk sizes are passed. *)
Theorem chunk_plan_of_writer_call (cubelist : CubesArg) (filename : string)
    (compression_level : Z) (lsd : option Z)
    (fv : option SpecFloat.spec_float) (st : State) :
  ∃ evs,
    events (save_netcdf_ cubelist filename compression_level lsd fv st).2 =
      events st ++ evs ∧
    ∀ cubes path opts, NetcdfSave cubes path opts ∈ evs →
      if decide (size (leading_shapes (heap st <$> as_cubelist cubelist)) = 1)
      then warnings evs = [] ∧
           ∃ first rest, as_cubelist cubelist = first :: rest ∧
                         chunksizes opts = chunk_shape (heap st first)
      else warnings evs = [chunksize_warning] ∧ chunksizes opts = None.
Proof.
  pose proof (save_netcdf_Run check_mandatory_standards netcdf_save
                cubelist filename compression_level lsd fv st) as HR.
  apply Run_calls in HR as (evs & He & Hcalls). exists evs. split; [done|].
  intros cubes path opts Hin.
  destruct (Hcalls cubes path opts Hin)
    as (v & st1 & chunks & c & _ & _ & _ & _ & Hplan & _ & _ & ->).
  revert Hplan. case (decide _); intros _.
  - intros (Hw & rest & Hls & ->). eauto.
  - by intros (Hw & -> & _).
Qed.

(** X5. When the chunk planner gives chunk sizes, they come from the first
    cube of the batch, which has at least two dimensions: as many entries
    as that cube has dimensions, 1 in every place but the last two, and the
    cube's own extent in the last two; the planner then leaves the state as
    it is and binds [cube] to that first cube. *)
Theorem planned_chunks_form (cubelist : list loc) (cube : option loc)
    (st : State) (chunks : list nat) (cube' : option loc) (st2 : State) :
  plan_chunksizes cubelist cube st = (Ok (Some chunks, cube'), st2) →
  ∃ first rest, cubelist = first :: rest ∧ cube' = Some first ∧ st2 = st ∧
    2 ≤ ndim (heap st first) ∧
    length chunks = ndim (heap st first) ∧
    (∀ i, i < ndim (heap st first) - 2 → chunks !! i = Some 1) ∧
    (∀ i, ndim (heap st first) - 2 ≤ i →
          chunks !! i = shape (heap st first) !! i).
Proof.
  rewrite plan_chunksizes_eq. case_decide as Hs; [|done].
  destruct cubelist as [|first rest]; [done|].
  unfold chunk_shape. case_decide as Hn; [|done].
  intros [= <- <- <-]. exists first, rest. unfold ndim in *.
  split_and!; try done.
  - rewrite length_app, length_replicate, length_drop. lia.
  - intros i Hi. rewrite lookup_app_l by (rewrite length_replicate; lia).
    by apply lookup_replicate_2.
  - intros i Hi. rewrite lookup_app_r by (rewrite length_replicate; lia).
    rewrite length_replicate, lookup_drop. f_equal. lia.
Qed.

(** X6. Saving a single cube never issues the varying-dimensions warning,
    whatever the outcome, and when the writer is called the chunk sizes are
    those computed from that cube. *)
Theorem single_cube_never_warns (cube : loc) (filename : string)
    (compression_level : Z) (lsd : option Z)
    (fv : option SpecFloat.spec_float) (st : State) :
  ∃ evs,
    events (save_netcdf_ (ACube cube) filename compression_level lsd fv st).2
      = events st ++ evs ∧
    warnings evs = [] ∧
    ∀ cubes path opts, NetcdfSave cubes path opts ∈ evs →
      chunksizes opts = chunk_shape (heap st cube).
Proof.
  pose proof (save_netcdf_Run check_mandatory_standards netcdf_save
                (ACube cube) filename compression_level lsd fv st) as HR.
  assert (Hone : size (leading_shapes (heap st <$> as_cubelist (ACube cube)))
                 = 1).
  { unfold leading_shapes.
    rewrite (size_list_to_set (C:=gset (list nat))); [done|].
    simpl. apply NoDup_singleton. }
  pose proof HR as (evs & He & Hcalls)%Run_calls.
  exists evs. split; [done|]. split.
  - apply Run_full in HR
      as [(e & Hv & _)
         |(v & st1 & warns & chunks & c & Hv & Hh & Hplan & Hrun)].
    { apply validate_cubes_Raise in Hv as (_ & He' & _).
      rewrite He' in He. rewrite <-(app_nil_r (events st)) in He at 1.
      by apply app_inv_head in He as <-. }
    rewrite decide_True in Hplan by done.
    destruct Hplan as (-> & first & rest & _ & -> & _).
    destruct (decide (0 ≤ compression_level < 10)%Z) as [Hl|Hl].
    + destruct Hrun as ([msg|] & fs' & _ & Hr).
      * destruct Hr as (_ & _ & He'). rewrite He' in He.
        by apply app_inv_head in He as <-.
      * destruct Hr as (He' & _). rewrite He' in He.
        by apply app_inv_head in He as <-.
    + destruct Hrun as (_ & _ & He'). rewrite He' in He.
      by apply app_inv_head in He as <-.
  - intros cubes path opts Hin.
    destruct (Hcalls cubes path opts Hin)
      as (v & st1 & chunks & c & _ & _ & _ & _ & Hplan & _ & _ & ->).
    rewrite decide_True in Hplan by done.
    by destruct Hplan as (_ & rest & [= ->] & ->).
Qed.

(** *** Global and local keys *)

Lemma elem_of_global_keys_of c key :
  key ∈ global_keys_of c ↔
  key ∈ fixed_global_keys ∨
  (PyStr.contains "mosg__" key = true ∧ is_Some (attributes c !! key)).
Proof.
  unfold global_keys_of.
  rewrite elem_of_app, list_elem_of_filter, elem_of_keys, Is_true_true.
  done.
Qed.

(** The local keys computed at lines 129-134 once the loop has tidied the
    batch, in terms of the attributes the caller's cubes had. *)
Lemma local_keys_validated (h h' : loc → Cube) ls c key :
  (∀ l, l ∈ ls → h' l = validated (h l)) → c ∈ ls →
  key ∈ local_keys_of (global_keys_of (h' c)) (h' <$> ls) ↔
  (∃ l, l ∈ ls ∧ is_Some (attributes (h l) !! key)) ∧
  key ≠ "least_significant_digit" ∧ (key ∉ fixed_global_keys) ∧
  ¬ (PyStr.contains "mosg__" key = true ∧ is_Some (attributes (h c) !! key)).
Proof.
  intros Hval Hc.
  assert (Hattr : ∀ l, l ∈ ls →
    is_Some (attributes (h' l) !! key) ↔
    key ≠ "least_significant_digit" ∧ is_Some (attributes (h l) !! key)).
  { intros l Hl. rewrite (Hval l Hl). simpl.
    destruct (decide ("least_significant_digit" = key)) as [<-|Hne].
    - rewrite lookup_delete_eq. split; [by intros [? ?]|by intros [? _]].
    - rewrite lookup_delete_ne by done.
      split; [by intros ?; split; [congruence|]|by intros [_ ?]]. }
  rewrite elem_of_local_keys_of, elem_of_global_keys_of, (Hattr c Hc).
  split.
  - intros (Hg & cb & (l & -> & Hl)%list_elem_of_fmap & Hk).
    apply Hattr in Hk as [Hne Hk]; [|done].
    split_and!; [eauto|done|tauto|tauto].
  - intros ((l & Hl & Hk) & Hne & Hfix & Hmosg). split; [tauto|].
    exists (h' l). split; [by apply list_elem_of_fmap_2|].
    by apply Hattr.
Qed.

(** X8. Whenever the writer is called, the local keys it is handed are
    exactly the keys that some cube of the batch had on entry, other than
    ["least_significant_digit"], the seven fixed global keys, and the keys
    with ["mosg__"] in them that one particular cube of the batch has. *)
Theorem local_keys_of_writer_call (cubelist : CubesArg) (filename : string)
    (compression_level : Z) (lsd : option Z)
    (fv : option SpecFloat.spec_float) (st : State) :
  ∃ evs,
    events (save_netcdf_ cubelist filename compression_level lsd fv st).2 =
      events st ++ evs ∧
    ∀ cubes path opts, NetcdfSave cubes path opts ∈ evs →
      ∃ c, c ∈ as_cubelist cubelist ∧
        ∀ key,
          key ∈ local_keys opts ↔
          (∃ l, l ∈ as_cubelist cubelist ∧
                is_Some (attributes (heap st l) !! key)) ∧
          key ≠ "least_significant_digit" ∧
          (key ∉ fixed_global_keys) ∧
          ¬ (PyStr.contains "mosg__" key = true ∧
             is_Some (attributes (heap st c) !! key)).
Proof.
  pose proof (save_netcdf_Run check_mandatory_standards netcdf_save
                cubelist filename compression_level lsd fv st) as HR.
  apply Run_calls in HR as (evs & He & Hcalls). exists evs. split; [done|].
  intros cubes path opts Hin.
  destruct (Hcalls cubes path opts Hin)
    as (v & st1 & chunks & c & Hv & Hh & Hc & _ & _ & -> & _ & ->).
  apply validate_cubes_Ok in Hv as (_ & _ & _ & Hval & _).
  exists c. split; [done|]. intros key. simpl.
  apply local_keys_validated; [|done]. intros l Hl. rewrite Hh. auto.
Qed.

(** X9. When a single cube is saved, the local keys handed to the writer
    are exactly the keys of that cube other than
    ["least_significant_digit"], the seven fixed global keys and the keys
    with ["mosg__"] in them. *)
Theorem local_keys_of_single_cube (cube : loc) (filename : string)
    (compression_level : Z) (lsd : option Z)
    (fv : option SpecFloat.spec_float) (st : State) :
  ∃ evs,
    events (save_netcdf_ (ACube cube) filename compression_level lsd fv st).2
      = events st ++ evs ∧
    ∀ cubes path opts, NetcdfSave cubes path opts ∈ evs →
      ∀ key,
        key ∈ local_keys opts ↔
        is_Some (attributes (heap st cube) !! key) ∧
        key ≠ "least_significant_digit" ∧
        (key ∉ fixed_global_keys) ∧
        PyStr.contains "mosg__" key = false.
Proof.
  pose proof (save_netcdf_Run check_mandatory_standards netcdf_save
                (ACube cube) filename compression_level lsd fv st) as HR.
  apply Run_calls in HR as (evs & He & Hcalls). exists evs. split; [done|].
  intros cubes path opts Hin key.
  destruct (Hcalls cubes path opts Hin)
    as (v & st1 & chunks & c & Hv & Hh & Hc & _ & _ & -> & _ & ->).
  apply validate_cubes_Ok in Hv as (_ & _ & _ & Hval & _).
  unfold save_options. cbn [local_keys].
  rewrite (local_keys_validated (heap st)); [|intros l Hl; rewrite Hh; auto|done].
  simpl in Hc. apply list_elem_of_singleton in Hc as ->. simpl.
  split.
  - intros ((l & ->%list_elem_of_singleton & Hk) & Hne & Hfix & Hmosg).
    split_and!; try done.
    destruct (PyStr.contains "mosg__" key); [|done]. by destruct Hmosg.
  - intros (Hk & Hne & Hfix & Hmosg). split_and!; try done.
    + exists cube. split; [apply list_elem_of_here|done].
    + rewrite Hmosg. by intros [? _].
Qed.

(** *** The filesystem *)

(** X10. With a writer that touches no path but the one it is handed,
    [save_netcdf] changes nothing at any path other than [filename] and
    [filename + ".tmp"], whatever the outcome. *)
Theorem other_paths_untouched
    (Hframe : ∀ cubes path opts fs q,
       q ≠ path → (netcdf_save cubes path opts fs).2 !! q = fs !! q)
    (cubelist : CubesArg) (filename : string) (compression_level : Z)
    (lsd : option Z) (fv : option SpecFloat.spec_float) (st : State)
    (q : string) :
  q ≠ filename → q ≠ filename +:+ ".tmp" →
  files (save_netcdf_ cubelist filename compression_level lsd fv st).2 !! q =
    files st !! q.
Proof.
  intros Hq Hqt.
  pose proof (save_netcdf_Run check_mandatory_standards netcdf_save
                cubelist filename compression_level lsd fv st) as HR.
  apply Run_trace in HR as (warns & _ & [(_ & -> & _)|HR]); [done|].
  destruct HR as (chunks & cube & result & fs' & _ & _ & _ & Hcall & Hr).
  simpl in Hcall.
  match type of Hcall with
  | netcdf_save ?c ?p ?o ?f = _ => pose proof (Hframe c p o f q Hqt) as Hfr
  end.
  rewrite Hcall in Hfr. simpl in Hfr.
  destruct result as [msg|].
  - destruct Hr as (_ & -> & _). done.
  - destruct Hr as (_ & Hr).
    destruct (fs' !! (filename +:+ ".tmp"));
      [destruct (os_refuses st _ _)|]; destruct Hr as (_ & ->);
      [done| |done].
    by rewrite lookup_insert_ne, lookup_delete_ne.
Qed.

(** *** Saving again *)

Lemma ordered_validated c : ordered (validated c) = validated c.
Proof.
  unfold validated. by rewrite ordered_without_lsd, ordered_idemp.
Qed.

(** X12. Once [save_netcdf] has returned for a batch, saving any of its
    cubes again, under whatever name and with whatever options, changes no
    cube, whatever the outcome of the second call. *)
Theorem save_again_changes_no_cube (cubelist again : CubesArg)
    (filename filename2 : string) (compression_level compression_level2 : Z)
    (lsd lsd2 : option Z) (fv fv2 : option SpecFloat.spec_float)
    (st : State) :
  let st1 :=
    (save_netcdf_ cubelist filename compression_level lsd fv st).2 in
  (save_netcdf_ cubelist filename compression_level lsd fv st).1 = Ok () →
  (∀ l, l ∈ as_cubelist again → l ∈ as_cubelist cubelist) →
  ∀ l, heap (save_netcdf_ again filename2 compression_level2 lsd2 fv2
               st1).2 l = heap st1 l.
Proof.
  intros st1 Hok Hsub l.
  pose proof (save_netcdf_Run check_mandatory_standards netcdf_save
                again filename2 compression_level2 lsd2 fv2 st1) as HR2.
  apply Run_heap in HR2 as (Hout & Hany).
  destruct (decide (l ∈ as_cubelist again)) as [Hin|Hnin]; [|by apply Hout].
  assert (Hl : heap st1 l = validated (heap st l)).
  { pose proof (save_netcdf_Run check_mandatory_standards netcdf_save
                  cubelist filename compression_level lsd fv st) as HR.
    rewrite Hok in HR. fold st1 in HR.
    apply Run_trace in HR as (warns & _ & [(_ & _ & e & ? & _)|HR]); [done|].
    destruct HR as (? & ? & ? & ? & _ & _ & Hval & _). auto. }
  destruct (Hany l) as [H|[H|H]]; rewrite H; [done|..]; rewrite Hl.
  - apply ordered_validated.
  - apply validated_idemp.
Qed.

(** *** The local variable [cube] and the index at line 110 *)

(** X13. [save_netcdf] fails with [UnboundLocalError] exactly on the empty
    batch, and then for the variable [cube]; it never fails with
    [IndexError]: [cubelist[0]] at line 110 is only reached with a batch
    that has a first cube. *)
Theorem unbound_cube_iff_empty_batch (cubelist : CubesArg) (filename : string)
    (compression_level : Z) (lsd : option Z)
    (fv : option SpecFloat.spec_float) (st : State) :
  let out := (save_netcdf_ cubelist filename compression_level lsd fv st).1 in
  ((∃ var, out = Raise (UnboundLocalError var)) ↔ as_cubelist cubelist = []) ∧
  (as_cubelist cubelist = [] → out = Raise (UnboundLocalError "cube")) ∧
  out ≠ Raise IndexError.
Proof.
  intros out.
  pose proof (save_netcdf_Run check_mandatory_standards netcdf_save
                cubelist filename compression_level lsd fv st) as HR.
  fold out in HR. revert HR. generalize out. clear out. intros out HR.
  apply Run_full in HR
    as [(e & Hv & ->)
       |(v & st1 & ws & chunks & cube & Hv & Hh & Hplan & Hrun)].
  { assert (Hne : as_cubelist cubelist ≠ []).
    { intros E. rewrite E in Hv. done. }
    apply validate_cubes_Raise in Hv as (_ & _ & Hr).
    split_and!; [split|done|].
    - intros (var & [= ->]).
      by destruct Hr as [(? & ? & _ & ?)|(? & _ & _ & ?)].
    - done.
    - intros [= ->].
      by destruct Hr as [(? & ? & _ & ?)|(? & _ & _ & ?)]. }
  revert Hplan. case (decide _); intros Hs Hplan.
  - destruct Hplan as (_ & first & rest & Hls & -> & _).
    assert (out ≠ Raise (UnboundLocalError "cube") ∧ out ≠ Raise IndexError
            ∧ ∀ var, out ≠ Raise (UnboundLocalError var)) as (H1 & H2 & H3).
    { destruct (decide (0 ≤ compression_level < 10)%Z);
        [|by destruct Hrun as (-> & _)].
      simpl in Hrun. destruct Hrun as ([msg|] & fs' & _ & Hr);
        [by destruct Hr as (-> & _)|].
      destruct Hr as (_ & Hr).
      destruct (fs' !! _); [destruct (os_refuses st _ _) as [errno|]|];
        destruct Hr as (-> & _); try done.
      by destruct (os_error_cases errno (filename +:+ ".tmp")) as [-> | ->]. }
    rewrite Hls. split_and!; [split|done|done].
    + intros (var & Hvar). by apply H3 in Hvar.
    + done.
  - destruct Hplan as (_ & _ & ->).
    destruct (list.last (as_cubelist cubelist)) as [c|] eqn:Hlast.
    + assert (Hne : as_cubelist cubelist ≠ []).
      { intros E. by rewrite E in Hlast. }
      assert (out ≠ Raise IndexError
              ∧ ∀ var, out ≠ Raise (UnboundLocalError var)) as (H2 & H3).
      { destruct (decide (0 ≤ compression_level < 10)%Z);
          [|by destruct Hrun as (-> & _)].
        simpl in Hrun. destruct Hrun as ([msg|] & fs' & _ & Hr);
          [by destruct Hr as (-> & _)|].
        destruct Hr as (_ & Hr).
        destruct (fs' !! _); [destruct (os_refuses st _ _) as [errno|]|];
          destruct Hr as (-> & _); try done.
        by destruct (os_error_cases errno (filename +:+ ".tmp"))
          as [-> | ->]. }
      split_and!; [split|done|done].
      * intros (var & Hvar). by apply H3 in Hvar.
      * done.
    + apply last_None in Hlast. destruct Hrun as (-> & _).
      split_and!; [split|done|done]; eauto.
Qed.

(** *** When the call returns *)

(** The loop completes on a batch whose cubes have known units and pass the
    standards check as the loop presents them: with canonical cell methods
    at the first visit, and without the precision attribute at a later
    one. *)
Lemma validate_cubes_passes ls v st :
  (∀ l, l ∈ ls → is_unknown (units (heap st l)) = false) →
  (∀ l c, l ∈ ls → c = ordered (heap st l) ∨ c = validated (heap st l) →
          check_mandatory_standards c = None) →
  ∃ v' st1,
    validate_cubes check_mandatory_standards ls v st = (Ok v', st1).
Proof.
  revert v st. induction ls as [|c rest IH]; intros v st Hu Hs.
  { by exists v, st. }
  rewrite validate_cubes_cons. simpl.
  rewrite (Hs c (ordered (heap st c))) by (auto using list_elem_of_here).
  replace (units (ordered (heap st c))) with (units (heap st c)) by done.
  rewrite (Hu c) by apply list_elem_of_here.
  apply IH; simpl.
  - intros l Hl. destruct (decide (c = l)) as [->|Hne].
    + rewrite !fn_lookup_insert. simpl. apply Hu, list_elem_of_here.
    + rewrite !fn_lookup_insert_ne by done.
      by apply Hu, list_elem_of_further.
  - intros l c' Hl Hc'. destruct (decide (c = l)) as [->|Hne].
    + rewrite !fn_lookup_insert in Hc'. fold (validated (heap st l)) in Hc'.
      rewrite ordered_validated, validated_idemp in Hc'.
      apply (Hs l); [apply list_elem_of_here|]. destruct Hc'; auto.
    + rewrite !fn_lookup_insert_ne in Hc' by done.
      apply (Hs l); [by apply list_elem_of_further|done].
Qed.

(** X14. On a batch that is not empty, whose cubes have known units and
    pass the standards check, with a compression level from 0 to 9, a
    writer that returns leaving a file at the path it is handed, and an
    operating system that has nothing against renaming the temporary path
    to the target (the target is no directory, its name is not empty, and
    so on), [save_netcdf] returns; the target path then holds a file and
    the temporary path holds none. *)
Theorem save_netcdf_returns
    (Hwriter : ∀ cubes path opts fs,
       (netcdf_save cubes path opts fs).1 = None ∧
       is_Some ((netcdf_save cubes path opts fs).2 !! path))
    (cubelist : CubesArg) (filename : string) (compression_level : Z)
    (lsd : option Z) (fv : option SpecFloat.spec_float) (st : State) :
  as_cubelist cubelist ≠ [] →
  (0 ≤ compression_level < 10)%Z →
  (∀ l, l ∈ as_cubelist cubelist → is_unknown (units (heap st l)) = false) →
  (∀ l c, l ∈ as_cubelist cubelist →
          c = ordered (heap st l) ∨ c = validated (heap st l) →
          check_mandatory_standards c = None) →
  os_refuses st (filename +:+ ".tmp") filename = None →
  (save_netcdf_ cubelist filename compression_level lsd fv st).1 = Ok () ∧
  is_Some (files (save_netcdf_ cubelist filename compression_level lsd fv
                    st).2 !! filename) ∧
  files (save_netcdf_ cubelist filename compression_level lsd fv st).2
    !! (filename +:+ ".tmp") = None.
Proof.
  intros Hne Hl Hu Hs Hos.
  assert (Hdiff : filename ≠ filename +:+ ".tmp").
  { intros E. symmetry in E. by apply PyStrFacts.append_ne in E. }
  destruct (validate_cubes_passes _ None st Hu Hs) as (v' & st1' & Hpass).
  pose proof (save_netcdf_Run check_mandatory_standards netcdf_save
                cubelist filename compression_level lsd fv st) as HR.
  apply Run_full in HR
    as [(e & Hv & _)
       |(v & st1 & ws & chunks & cube & Hv & Hh & Hplan & Hrun)].
  { rewrite Hpass in Hv. done. }
  assert (∃ c, cube = Some c) as (c & ->).
  { revert Hplan. case (decide _); intros _ Hplan.
    - destruct Hplan as (_ & first & rest & _ & -> & _). eauto.
    - destruct Hplan as (_ & _ & ->).
      destruct (list.last _) eqn:Hlast; [eauto|].
      by apply last_None in Hlast. }
  rewrite decide_True in Hrun by done. simpl in Hrun.
  destruct Hrun as (result & fs' & Hcall & Hr).
  match type of Hcall with
  | netcdf_save ?c ?p ?o ?f = _ =>
      destruct (Hwriter c p o f) as (Hres & data & Hdata)
  end.
  rewrite Hcall in Hres, Hdata. simpl in Hres, Hdata. subst result.
  destruct Hr as (_ & Hr). rewrite Hdata, Hos in Hr.
  destruct Hr as (-> & ->).
  split_and!; [done|..].
  - rewrite lookup_insert_eq. eauto.
  - rewrite lookup_insert_ne by done. apply lookup_delete_eq.
Qed.

(** *** What was done, by outcome *)

(** X16. The outcome of [save_netcdf] tells what it did, in order: after a
    metadata error nothing; after the error on the unbound [cube] it has
    warned; after the compression-level error it has at most warned; after
    an error of the writer it has at most warned and then called the writer
    once, on the temporary path; and when it returns or the rename fails
    (with [FileNotFoundError] or any other [OSError]) it has at most warned,
    called the writer once and renamed once, from the temporary path to the
    target. It warns at most once, before anything else. *)
Theorem record_by_outcome (cubelist : CubesArg) (filename : string)
    (compression_level : Z) (lsd : option Z)
    (fv : option SpecFloat.spec_float) (st : State) :
  let out := (save_netcdf_ cubelist filename compression_level lsd fv st).1 in
  let st' := (save_netcdf_ cubelist filename compression_level lsd fv st).2 in
  let ftmp := filename +:+ ".tmp" in
  let warned warns := warns = [] ∨ warns = [Warn chunksize_warning] in
  ∃ evs, events st' = events st ++ evs ∧
    match out with
    | Ok _ | Raise (FileNotFoundError _) | Raise (OSError _ _) =>
        ∃ warns cubes opts, warned warns ∧
          evs = warns ++ [NetcdfSave cubes ftmp opts; Rename ftmp filename]
    | Raise (WriterError _) =>
        ∃ warns cubes opts, warned warns ∧
          evs = warns ++ [NetcdfSave cubes ftmp opts]
    | Raise (UnboundLocalError _) => evs = [Warn chunksize_warning]
    | Raise (ValueError msg) =>
        if decide (msg = compression_level_msg) then warned evs else evs = []
    | Raise (StandardsError _) => evs = []
    | Raise IndexError => False
    end.
Proof.
  intros out st' ftmp warned.
  pose proof (save_netcdf_Run check_mandatory_standards netcdf_save
                cubelist filename compression_level lsd fv st) as HR.
  fold out st' in HR. revert HR. generalize out st'. clear out st'.
  intros out st' HR.
  apply Run_full in HR
    as [(e & Hv & ->)
       |(v & st1 & ws & chunks & cube & Hv & Hh & Hplan & Hrun)].
  { apply validate_cubes_Raise in Hv as (_ & He & Hr). exists [].
    rewrite app_nil_r. split; [done|].
    destruct Hr as [(? & ? & _ & ->)|(l & _ & _ & ->)]; [done|].
    rewrite decide_False; [done|]. apply PyStrFacts.unknown_units_msg_ne. }
  assert (Hw : warned ws).
  { revert Hplan. case (decide _); intros _ Hplan.
    - left. apply Hplan.
    - right. apply Hplan. }
  destruct cube as [c|].
  - destruct (decide (0 ≤ compression_level < 10)%Z) as [Hl|Hl].
    + simpl in Hrun. destruct Hrun as ([msg|] & fs' & _ & Hr).
      * destruct Hr as (-> & _ & He). eauto 10.
      * destruct Hr as (He & Hr).
        destruct (fs' !! _); [destruct (os_refuses st _ _) as [errno|]|];
          destruct Hr as (-> & _); eauto 10.
        destruct (os_error_cases errno (filename +:+ ".tmp")) as [-> | ->];
          eauto 10.
    + destruct Hrun as (-> & _ & He). exists ws. split; [done|].
      by rewrite decide_True.
  - destruct Hrun as (-> & _ & He). exists ws. split; [done|].
    revert Hplan. case (decide _); intros _ Hplan.
    + by destruct Hplan as (_ & ? & ? & _ & ? & _).
    + apply Hplan.
Qed.

End extras.

(** *** [_order_cell_methods] on its own *)

Module CellMethodsMoreFacts.
Import PyOrderFacts CellMethods CellMethodsFacts.

Lemma canonical_submseteq xs : canonical xs ⊆+ xs.
Proof.
  apply NoDup_submseteq; [apply canonical_NoDup|].
  intros m. by rewrite elem_of_canonical.
Qed.

Lemma canonical_length_eq xs : length (canonical xs) = length xs ↔ NoDup xs.
Proof.
  split.
  - intros Hlen.
    assert (canonical xs ≡ₚ xs) as <-; [|apply canonical_NoDup].
    apply submseteq_length_Permutation; [apply canonical_submseteq|lia].
  - intros Hn. apply Nat.le_antisymm.
    + apply submseteq_length, canonical_submseteq.
    + apply submseteq_length, NoDup_submseteq; [done|].
      intros m. by rewrite elem_of_canonical.
Qed.

Lemma increasing_Sorted_NoDup l :
  StronglySorted lt l → Sorted le l ∧ NoDup l.
Proof.
  induction 1 as [|x l Hl [IHs IHn] Hx]; [split; constructor|].
  rewrite list.Forall_forall in Hx. split.
  - constructor; [done|]. destruct l as [|y l]; constructor.
    apply (le_of_lt_or_eq compare compare_total). left.
    apply Hx, list_elem_of_here.
  - apply list.NoDup_cons. split; [|done].
    intros Hin%Hx. by apply (lt_of_irrefl compare compare_total) in Hin.
Qed.

Lemma canonical_fixed xs : canonical xs = xs ↔ StronglySorted lt xs.
Proof.
  split.
  - intros <-. apply canonical_increasing.
  - intros [Hs Hn]%increasing_Sorted_NoDup. by apply canonical_unique.
Qed.

End CellMethodsMoreFacts.

(** X15. [_order_cell_methods] touches nothing but the cell methods of its
    cube; it never makes them more, keeps their number exactly when no cell
    method was repeated, and leaves the cube as it is exactly when its cell
    methods were already strictly increasing. *)
Theorem order_cell_methods_effect (cube : loc) (st : State) :
  let st' := (_order_cell_methods cube st).2 in
  let before := heap st cube in
  let after := heap st' cube in
  files st' = files st ∧ events st' = events st ∧
  (∀ l, l ≠ cube → heap st' l = heap st l) ∧
  name after = name before ∧ units after = units before ∧
  shape after = shape before ∧ attributes after = attributes before ∧
  length (cell_methods after) ≤ length (cell_methods before) ∧
  (length (cell_methods after) = length (cell_methods before) ↔
   NoDup (cell_methods before)) ∧
  (after = before ↔ StronglySorted CellMethods.lt (cell_methods before)).
Proof.
  intros st' before after. subst st' after.
  unfold _order_cell_methods, mbind, Py_bind, read, update. simpl.
  rewrite !fn_lookup_insert. fold before. simpl.
  split_and!; try done.
  - intros l Hne. by rewrite fn_lookup_insert_ne.
  - apply submseteq_length, CellMethodsMoreFacts.canonical_submseteq.
  - apply CellMethodsMoreFacts.canonical_length_eq.
  - rewrite <-CellMethodsMoreFacts.canonical_fixed. split.
    + intros H. by apply (f_equal cell_methods) in H.
    + intros H. unfold set_cell_methods. rewrite H. by destruct before.
Qed.

(** ** The further properties at concrete runs *)

Module ConcreteMore.
Import Examples.

Lemma writer_leaves_file cubes path opts fs :
  (writer cubes path opts fs).1 = None ∧
  is_Some ((writer cubes path opts fs).2 !! path).
Proof. simpl. rewrite lookup_insert_eq. eauto. Qed.

(** X2 at one cube with a repeated cell method and a stale precision
    attribute. *)
Lemma save_netcdf_returns_only_valid_witness :
  (save_netcdf standards_pass writer (ACube 0) "out.nc" 1 None None
     (state [temperature] None)).1 = Ok () ∧
  heap (save_netcdf standards_pass writer (ACube 0) "out.nc" 1 None None
          (state [temperature] None)).2 0 = validated temperature.
Proof.
  assert (Hok : (save_netcdf standards_pass writer (ACube 0) "out.nc" 1 None
                   None (state [temperature] None)).1 = Ok ())
    by (vm_compute; reflexivity).
  split; [exact Hok|].
  destruct (save_netcdf_returns_only_valid standards_pass writer (ACube 0)
              "out.nc" 1 None None (state [temperature] None) Hok)
    as (_ & _ & Hall).
  destruct (Hall 0 (list_elem_of_here _ _)) as (_ & Hh). exact Hh.
Defined.


(** X5 at a cube of shape (3, 5, 5). *)
Lemma planned_chunks_form_witness :
  plan_chunksizes [0] None (state [three_steps] None) =
    (Ok (Some [1; 5; 5], Some 0), state [three_steps] None) ∧
  ∃ first rest, [0] = first :: rest ∧ Some 0 = Some first ∧
    length [1; 5; 5] = ndim (heap (state [three_steps] None) first).
Proof.
  assert (Hp : plan_chunksizes [0] None (state [three_steps] None) =
               (Ok (Some [1; 5; 5], Some 0), state [three_steps] None))
    by reflexivity.
  split; [exact Hp|].
  destruct (planned_chunks_form [0] None (state [three_steps] None)
              [1; 5; 5] (Some 0) (state [three_steps] None) Hp)
    as (first & rest & Hls & Hc & _ & _ & Hlen & _).
  exists first, rest. split; [exact Hls|]. split; [exact Hc|exact Hlen].
Defined.

(** X10 with a file of another name next to the target. *)
Lemma other_paths_untouched_witness :
  (∀ cubes path opts fs q,
     q ≠ path → (writer cubes path opts fs).2 !! q = fs !! q) ∧
  "old.nc" ≠ "out.nc" ∧ "old.nc" ≠ "out.nc" +:+ ".tmp" ∧
  files (save_netcdf standards_pass writer (ACube 0) "out.nc" 1 None None
           (set_files {["old.nc" := "kept"]} (state [temperature] None))).2
    !! "old.nc" = Some "kept".
Proof.
  assert (H1 : "old.nc" ≠ "out.nc") by discriminate.
  assert (H2 : "old.nc" ≠ "out.nc" +:+ ".tmp") by discriminate.
  split; [exact Concrete.writer_frame|]. split; [exact H1|].
  split; [exact H2|].
  rewrite (other_paths_untouched standards_pass writer Concrete.writer_frame
             (ACube 0) "out.nc" 1 None None
             (set_files {["old.nc" := "kept"]} (state [temperature] None))
             "old.nc" H1 H2).
  reflexivity.
Defined.

(** X12 at a batch of two cubes saved once, the first of them saved again
    under another name and with a precision. *)
Lemma save_again_changes_no_cube_witness :
  (save_netcdf standards_pass writer (ACubeList [0; 1]) "out.nc" 1 None None
     (state [temperature; plain] None)).1 = Ok () ∧
  (∀ l, l ∈ as_cubelist (ACube 0) → l ∈ as_cubelist (ACubeList [0; 1])) ∧
  heap (save_netcdf standards_pass writer (ACube 0) "again.nc" 4 (Some 2%Z)
          None
          (save_netcdf standards_pass writer (ACubeList [0; 1]) "out.nc" 1
             None None (state [temperature; plain] None)).2).2 0 =
  heap (save_netcdf standards_pass writer (ACubeList [0; 1]) "out.nc" 1
          None None (state [temperature; plain] None)).2 0.
Proof.
  assert (Hok : (save_netcdf standards_pass writer (ACubeList [0; 1])
                   "out.nc" 1 None None
                   (state [temperature; plain] None)).1 = Ok ())
    by (vm_compute; reflexivity).
  assert (Hsub : ∀ l, l ∈ as_cubelist (ACube 0) →
                      l ∈ as_cubelist (ACubeList [0; 1])).
  { intros l ->%list_elem_of_singleton. apply list_elem_of_here. }
  split; [exact Hok|]. split; [exact Hsub|].
  exact (save_again_changes_no_cube standards_pass writer (ACubeList [0; 1])
           (ACube 0) "out.nc" "again.nc" 1 4 None (Some 2%Z) None None
           (state [temperature; plain] None) Hok Hsub 0).
Defined.

(** X14 at one cube, a standards check that passes, a writer that creates
    its file and an operating system that refuses no renaming. *)
Lemma save_netcdf_returns_witness :
  (∀ cubes path opts fs,
     (writer cubes path opts fs).1 = None ∧
     is_Some ((writer cubes path opts fs).2 !! path)) ∧
  as_cubelist (ACube 0) ≠ [] ∧ (0 ≤ 1 < 10)%Z ∧
  (∀ l, l ∈ as_cubelist (ACube 0) →
        is_unknown (units (heap (state [temperature] None) l)) = false) ∧
  os_refuses (state [temperature] None) ("out.nc" +:+ ".tmp") "out.nc" =
    None ∧
  (save_netcdf standards_pass writer (ACube 0) "out.nc" 1 None None
     (state [temperature] None)).1 = Ok () ∧
  is_Some (files (save_netcdf standards_pass writer (ACube 0) "out.nc" 1 None
                    None (state [temperature] None)).2 !! "out.nc").
Proof.
  assert (Hne : as_cubelist (ACube 0) ≠ []) by done.
  assert (Hl : (0 ≤ 1 < 10)%Z) by lia.
  assert (Hu : ∀ l, l ∈ as_cubelist (ACube 0) →
             is_unknown (units (heap (state [temperature] None) l)) = false).
  { intros l ->%list_elem_of_singleton. reflexivity. }
  split; [exact writer_leaves_file|]. split; [exact Hne|].
  split; [exact Hl|]. split; [exact Hu|]. split; [reflexivity|].
  destruct (save_netcdf_returns standards_pass writer writer_leaves_file
              (ACube 0) "out.nc" 1 None None (state [temperature] None)
              Hne Hl Hu (λ _ _ _ _, eq_refl) eq_refl)
    as (Hok & Hfile & _).
  split; [exact Hok|exact Hfile].
Defined.

End ConcreteMore.
